(** * x402 MCP weather agent: a shallow embedding of [server/mcp-weather-server.ts]

    The development follows the source file top to bottom:

    - [Js]       the fragment of JavaScript values the server manipulates:
                 primitives, references into a heap of objects and arrays,
                 [typeof], truthiness, [??], property reads, case mapping;
    - [Json]     [JSON.stringify(value, null, 2)], with the cycle check and the
                 [TypeError] on BigInt of the language specification;
    - [Server]   the module itself: configuration read from [process.env], the
                 start-up guard on the two secrets, [createPaidHttpClient],
                 [getHeaderValue], [safeJsonStringify], [toRawOutput] and the
                 two tool handlers;
    - [Envelope] the result envelope in the words of the design document,
                 for the statements to compare the handlers with;
    - [Executor] the payment-aware request wrapper the handlers call through
                 [api.get]; its code lives in a dependency ([@x402/axios]) and
                 is modelled from the design document;
    - [Sample]   concrete inputs on which the definitions are run;
    - [Receipt], [Text], [Settled], [Failed]
                 the envelope of the design document written out as the
                 JSON text a client reads, and what it is to say of a
                 settled call, for the statements to compare the text the
                 handlers return with.

    Theorems come after the definitions, one block per property. *)

From Stdlib Require Import ZArith Ascii String.
From stdpp Require Import base decidable option list strings gmap pretty.

(** ** JavaScript values *)

Module Js.

(** Heap addresses.  Every object and array lives in the heap; a value
    only ever holds a reference to it, so that aliasing and reference
    cycles are expressible. *)
Abbreviation addr := nat.

(** Numbers.  The server only ever inspects HTTP status codes and a
    timeout in milliseconds; the model carries the integers and [NaN]
    (what [Number] yields on text that is not numeric). *)
Inductive number :=
| Int (z : Z)
| NaN.

(** The values the server meets.  A function is opaque; symbols do not
    occur. *)
Inductive value :=
| VUndefined
| VNull
| VBool (b : bool)
| VNumber (n : number)
| VString (s : string)
| VBigInt (z : Z)
| VFunction
| VRef (a : addr).

(** An object is its own enumerable string-keyed properties, in the order
    in which the language enumerates them, each key once; an array is its
    elements. *)
Inductive object :=
| Obj (props : list (string * value))
| Arr (elems : list value).

Abbreviation heap := (list object).

#[global] Instance number_eq_dec : EqDecision number.
Proof. solve_decision. Defined.
#[global] Instance value_eq_dec : EqDecision value.
Proof. solve_decision. Defined.
#[global] Instance object_eq_dec : EqDecision object.
Proof. solve_decision. Defined.

(** [typeof v] *)
Inductive jstype :=
| TUndefined | TObject | TBoolean | TNumber | TString | TBigint | TFunction.

#[global] Instance jstype_eq_dec : EqDecision jstype.
Proof. solve_decision. Defined.

Definition typeof (v : value) : jstype :=
  match v with
  | VUndefined => TUndefined
  | VNull => TObject
  | VBool _ => TBoolean
  | VNumber _ => TNumber
  | VString _ => TString
  | VBigInt _ => TBigint
  | VFunction => TFunction
  | VRef _ => TObject
  end.

(** [ToBoolean]: the falsy values are [undefined], [null], [false], [0],
    [NaN], the empty string and [0n]. *)
Definition truthy (v : value) : bool :=
  match v with
  | VUndefined | VNull => false
  | VBool b => b
  | VNumber (Int z) => negb (z =? 0)%Z
  | VNumber NaN => false
  | VString s => negb (String.eqb s EmptyString)
  | VBigInt z => negb (z =? 0)%Z
  | VFunction | VRef _ => true
  end.

Definition nullish (v : value) : bool :=
  match v with
  | VUndefined | VNull => true
  | _ => false
  end.

(** [a ?? b] *)
Definition coalesce (a b : value) : value :=
  if nullish a then b else a.

Infix "??" := coalesce (at level 61, left associativity).

(** [String.prototype.toLowerCase] and [toUpperCase] on the ASCII range,
    which is where HTTP header names live; other bytes are left alone. *)
Definition lower_ascii (c : ascii) : ascii :=
  let n := nat_of_ascii c in
  if (65 <=? n) && (n <=? 90) then ascii_of_nat (n + 32) else c.

Definition upper_ascii (c : ascii) : ascii :=
  let n := nat_of_ascii c in
  if (97 <=? n) && (n <=? 122) then ascii_of_nat (n - 32) else c.

Fixpoint map_string (f : ascii → ascii) (s : string) : string :=
  match s with
  | EmptyString => EmptyString
  | String c s' => String (f c) (map_string f s')
  end.

Definition toLowerCase : string → string := map_string lower_ascii.
Definition toUpperCase : string → string := map_string upper_ascii.

(** Property read [o[key]] on own properties.  On an object, the first
    entry under [key]; on an array, the element when [key] is the decimal
    spelling of an index in range, and the length under ["length"]. *)
Fixpoint assoc (key : string) (props : list (string * value)) : value :=
  match props with
  | [] => VUndefined
  | (k, v) :: ps => if String.eqb k key then v else assoc key ps
  end.

Definition index_of_key (len : nat) (key : string) : option nat :=
  List.find (λ i, String.eqb (pretty i) key) (seq 0 len).

Definition get_own (o : object) (key : string) : value :=
  match o with
  | Obj props => assoc key props
  | Arr elems =>
      match index_of_key (length elems) key with
      | Some i => default VUndefined (elems !! i)
      | None =>
          if String.eqb key "length"
          then VNumber (Int (Z.of_nat (length elems)))
          else VUndefined
      end
  end.

(** [v[key]] for a value that passed a [typeof v === "object"] test and is
    not [null].  An address outside the heap reads as an object without
    properties.  The members an object inherits from its prototype are not
    part of the model: they are named by identifiers, and the names the
    server reads are header names with a hyphen ([Header.dashed] below). *)
Definition get (h : heap) (v : value) (key : string) : value :=
  match v with
  | VRef a =>
      match h !! a with
      | Some o => get_own o key
      | None => VUndefined
      end
  | _ => VUndefined
  end.

(** [Array.isArray(v)] *)
Definition isArray (h : heap) (v : value) : bool :=
  match v with
  | VRef a =>
      match h !! a with
      | Some (Arr _) => true
      | _ => false
      end
  | _ => false
  end.

(** The values that print without a look at the heap. *)
Definition plain (v : value) : bool :=
  match v with
  | VBigInt _ | VRef _ => false
  | _ => true
  end.

(** A value that is not a reference, or a reference into the heap. *)
Definition in_heap (h : heap) (v : value) : bool :=
  match v with
  | VRef a => bool_decide (a < length h)
  | _ => true
  end.

Definition fields (o : object) : list value :=
  match o with
  | Obj props => props.*2
  | Arr elems => elems
  end.

(** A heap without dangling references, as every heap of a running program
    is. *)
Definition closed (h : heap) : bool :=
  forallb (λ o, forallb (in_heap h) (fields o)) h.

(** A heap as [JSON.parse] builds it: trees, no BigInt.  With the cells
    numbered children first, every reference points to a lower address. *)
Definition below (a : addr) (v : value) : bool :=
  match v with
  | VRef b => bool_decide (b < a)
  | VBigInt _ => false
  | _ => true
  end.

Fixpoint downward_from (a : addr) (h : heap) : bool :=
  match h with
  | [] => true
  | o :: h' => forallb (below a) (fields o) && downward_from (S a) h'
  end.

Definition downward (h : heap) : bool := downward_from 0 h.

(** Evaluating an object or array literal: a fresh cell at the end of the
    heap, and the reference to it. *)
Definition alloc (h : heap) (o : object) : heap * value :=
  (h ++ [o], VRef (length h)).

End Js.

Import Js.

(** ** Completions *)

(** How a piece of JavaScript ends: normally with a value, abruptly with a
    thrown value, or
    (for the recursive serializer below, which is defined on a fuel
    argument) without an answer within the fuel given.  The last case is an
    artefact of the embedding and is shown never to arise. *)
Inductive completion (E A : Type) :=
| Normal (a : A)
| Throw (e : E)
| OutOfFuel.

Arguments Normal {E A} a.
Arguments Throw {E A} e.
Arguments OutOfFuel {E A}.

Definition cbind {E A B} (c : completion E A) (k : A → completion E B)
  : completion E B :=
  match c with
  | Normal a => k a
  | Throw e => Throw e
  | OutOfFuel => OutOfFuel
  end.

Notation "x ←! c ; k" := (cbind c (λ x, k))
  (at level 100, c at next level, right associativity, only parsing).

(** ** [JSON.stringify(value, null, 2)] *)

Module Json.

(** The [TypeError]s of the algorithm, with V8's message texts. *)
Inductive type_error :=
| TypeError (message : string).

Definition circular : type_error :=
  TypeError "Converting circular structure to JSON".
Definition bigint : type_error :=
  TypeError "Do not know how to serialize a BigInt".

Definition dquote : ascii := "034"%char.
Definition backslash : ascii := "092"%char.
Definition newline : string := String "010"%char EmptyString.

(** Expected texts in this development spell the double quote as an
    apostrophe; [dq] puts the double quotes back. *)
Fixpoint dq (s : string) : string :=
  match s with
  | EmptyString => EmptyString
  | String c s' =>
      String (if Ascii.eqb c "039"%char then dquote else c) (dq s')
  end.

Definition hex_digit (n : nat) : ascii :=
  if (n <? 10)%nat then ascii_of_nat (48 + n) else ascii_of_nat (87 + n).

(** One code unit inside [QuoteJSONString]. *)
Definition escape (c : ascii) : string :=
  let n := nat_of_ascii c in
  let esc (x : string) := String backslash x in
  if (n =? 8)%nat then esc "b"
  else if (n =? 9)%nat then esc "t"
  else if (n =? 10)%nat then esc "n"
  else if (n =? 12)%nat then esc "f"
  else if (n =? 13)%nat then esc "r"
  else if (n =? 34)%nat then esc (String dquote EmptyString)
  else if (n =? 92)%nat then esc (String backslash EmptyString)
  else if (n <? 32)%nat then
    esc ("u00" +:+ String (hex_digit (n / 16)) (String (hex_digit (n mod 16)) EmptyString))
  else String c EmptyString.

Fixpoint escape_all (s : string) : string :=
  match s with
  | EmptyString => EmptyString
  | String c s' => escape c +:+ escape_all s'
  end.

Definition quote (s : string) : string :=
  String dquote (escape_all s +:+ String dquote EmptyString).

(** The third argument [2]: a gap of two spaces. *)
Definition gap : string := "  ".

(** The closing steps of [SerializeJSONObject] and [SerializeJSONArray],
    for a non-empty gap. *)
Definition wrap (open close stepback indent : string) (partial : list string)
  : string :=
  match partial with
  | [] => open +:+ close
  | _ =>
      let separator := "," +:+ newline +:+ indent in
      open +:+ newline +:+ indent +:+ String.concat separator partial
        +:+ newline +:+ stepback +:+ close
  end.

Section members.
Context (E : Type) (go : value → completion E (option string)).

(** The loop over the keys of an object: a property whose value serializes
    to [undefined] is left out. *)
Fixpoint members (props : list (string * value))
  : completion E (list string) :=
  match props with
  | [] => Normal []
  | (k, v) :: ps =>
      strP ←! go v;
      rest ←! members ps;
      Normal match strP with
             | Some str => (quote k +:+ ": " +:+ str) :: rest
             | None => rest
             end
  end.

(** The loop over the elements of an array: [undefined] prints as [null]. *)
Fixpoint elements (elems : list value) : completion E (list string) :=
  match elems with
  | [] => Normal []
  | v :: vs =>
      strP ←! go v;
      rest ←! elements vs;
      Normal (default "null" strP :: rest)
  end.

End members.

Arguments members {E} go props.
Arguments elements {E} go elems.

(** [SerializeJSONProperty] on the value read from the holder.  [stack] is
    the list of objects being serialized; meeting one of them again is a
    cycle.  Values here carry no methods, so there is no [toJSON] step. *)
Fixpoint serialize (fuel : nat) (h : heap) (stack : list addr)
    (indent : string) (v : value) : completion type_error (option string) :=
  match v with
  | VUndefined | VFunction => Normal None
  | VNull => Normal (Some "null")
  | VBool true => Normal (Some "true")
  | VBool false => Normal (Some "false")
  | VNumber (Int z) => Normal (Some (pretty z))
  | VNumber NaN => Normal (Some "null")
  | VString s => Normal (Some (quote s))
  | VBigInt _ => Throw bigint
  | VRef a =>
      if bool_decide (a ∈ stack) then Throw circular
      else
        match fuel with
        | O => OutOfFuel
        | S fuel' =>
            let stepback := indent in
            let indent := indent +:+ gap in
            let go := serialize fuel' h (a :: stack) indent in
            match h !! a with
            | Some (Obj props) =>
                partial ←! members go props;
                Normal (Some (wrap "{" "}" stepback indent partial))
            | Some (Arr elems) =>
                partial ←! elements go elems;
                Normal (Some (wrap "[" "]" stepback indent partial))
            | None => Normal (Some "{}")
            end
        end
  end.

(** [JSON.stringify(v, null, 2)].  At most one object per heap cell can be
    open at a time, so one unit of fuel per cell and one more is enough. *)
Definition stringify (h : heap) (v : value)
  : completion type_error (option string) :=
  serialize (S (length h)) h [] EmptyString v.

(** Serializing [v] below the objects of [stack] raises no [TypeError],
    whatever the fuel and the indentation. *)
Definition safe (h : heap) (stack : list addr) (v : value) : Prop :=
  ∀ fuel indent e, serialize fuel h stack indent v ≠ Throw e.

End Json.

(** ** What [axios] hands to its caller *)

Module Axios.

(** [AxiosResponse]: the fields the server reads.  The handlers guard
    [status] with [??], so it may be missing. *)
Record AxiosResponse := {
  status : option Z;
  headers : value;
  data : value;
}.

(** What a rejected [api.get] carries: an [AxiosError] (with the response,
    when one was received), or any other [Error] with its [name] and
    [message]. *)
Inductive thrown :=
| AxiosError (message : string) (response : option AxiosResponse)
| OtherError (name message : string).

(** [axios.isAxiosError(error)] *)
Definition isAxiosError (e : thrown) : bool :=
  match e with
  | AxiosError _ _ => true
  | OtherError _ _ => false
  end.

(** [error.message] *)
Definition message (e : thrown) : string :=
  match e with
  | AxiosError m _ => m
  | OtherError _ m => m
  end.

(** [error.name] *)
Definition name (e : thrown) : string :=
  match e with
  | AxiosError _ _ => "AxiosError"
  | OtherError n _ => n
  end.

(** [String(error)], that is [Error.prototype.toString]. *)
Definition to_string (e : thrown) : string :=
  if String.eqb (name e) EmptyString then message e
  else if String.eqb (message e) EmptyString then name e
  else name e +:+ ": " +:+ message e.

(** The promise returned by [api.get], once settled. *)
Inductive settled :=
| Fulfilled (response : AxiosResponse)
| Rejected (error : thrown).

(** A type error raised while the handler runs, as the [catch] clause
    receives it. *)
Definition of_type_error (e : Json.type_error) : thrown :=
  match e with
  | Json.TypeError m => OtherError "TypeError" m
  end.

End Axios.

(** ** The server module *)

Module Server.

(** *** Configuration, lines 19-23 *)

Record Config := {
  evmPrivateKey : option string;
  svmPrivateKey : option string;
  baseURL : string;
  endpointPath : string;
  requestTimeoutMs : number;
}.

Section config.

(** [Number(s)] on a string, the language's [StringToNumber]. *)
Context (StringToNumber : string → number).

(** [process.env] is a map from names to strings; a lookup that misses is
    [undefined], which is what [??] tests for. *)
Definition load (env : gmap string string) : Config := {|
  evmPrivateKey := env !! "EVM_PRIVATE_KEY";
  svmPrivateKey := env !! "SVM_PRIVATE_KEY";
  baseURL := default "http://localhost:4021" (env !! "RESOURCE_SERVER_URL");
  endpointPath := default "/weather" (env !! "ENDPOINT_PATH");
  requestTimeoutMs :=
    match env !! "REQUEST_TIMEOUT_MS" with
    | Some s => StringToNumber s
    | None => Int 15000
    end;
|}.

End config.

(** Truthiness of [string | undefined]: a secret that is unset or empty
    does not count. *)
Definition provided (secret : option string) : bool :=
  match secret with
  | Some s => negb (String.eqb s EmptyString)
  | None => false
  end.

(** The guard of lines 26-28. *)
Definition no_signer (cfg : Config) : bool :=
  negb (provided (evmPrivateKey cfg)) && negb (provided (svmPrivateKey cfg)).

(** *** [createPaidHttpClient], lines 38-62 *)

Inductive family := Evm | Svm.

#[global] Instance family_eq_dec : EqDecision family.
Proof. solve_decision. Defined.

#[global] Instance family_countable : Countable family.
Proof.
  refine (inj_countable' (λ f, match f with Evm => false | Svm => true end)
                         (λ b : bool, if b then Svm else Evm) _).
  by intros [].
Defined.

(** What the process does that an observer can see, in order. *)
Inductive event :=
| RegisterScheme (f : family)
| RegisterTool (tool : string)
| Connect
| Exit (code : Z).

#[global] Instance event_eq_dec : EqDecision event.
Proof. solve_decision. Defined.

(** A computation that logs events and may throw: the events so far, and
    the value unless it threw. *)
Definition traced (A : Type) : Type := list event * option A.

Definition ret {A} (a : A) : traced A := ([], Some a).

Definition emit (e : event) : traced unit := ([e], Some tt).

Definition attempt {A} (o : option A) : traced A := ([], o).

Definition bind {A B} (m : traced A) (k : A → traced B) : traced B :=
  match m with
  | (log, Some a) => let '(log', b) := k a in (log ++ log', b)
  | (log, None) => (log, None)
  end.

Notation "x ←$ m ; k" := (bind m (λ x, k))
  (at level 100, m at next level, right associativity, only parsing).

Section startup.

Context (StringToNumber : string → number).

(** The signer libraries.  Each is a partial function: [None] stands for
    the exception it raises on a malformed secret. *)
Context {Signer Bytes : Type}.
Context (privateKeyToAccount : string → option Signer).
Context (base58_decode : string → option Bytes).
Context (createKeyPairSignerFromBytes : Bytes → option Signer).

(** The wrapped axios instance: the [axios.create] options and the x402
    client with the schemes registered on it. *)
Record PaidHttpClient := {
  api_baseURL : string;
  api_timeout : number;
  api_client : gmap family Signer;
}.

Definition registerExactEvmScheme (client : gmap family Signer) (signer : Signer)
  : gmap family Signer := <[Evm := signer]> client.

Definition registerExactSvmScheme (client : gmap family Signer) (signer : Signer)
  : gmap family Signer := <[Svm := signer]> client.

(** [createPaidHttpClient] registers the scheme of each secret that is
    provided, then wraps a fresh axios instance. *)
Definition createPaidHttpClient (cfg : Config) : traced PaidHttpClient :=
  let client : gmap family Signer := ∅ in
  client ←$
    match evmPrivateKey cfg with
    | Some key =>
        if provided (Some key) then
          signer ←$ attempt (privateKeyToAccount key);
          _ ←$ emit (RegisterScheme Evm);
          ret (registerExactEvmScheme client signer)
        else ret client
    | None => ret client
    end;
  client ←$
    match svmPrivateKey cfg with
    | Some key =>
        if provided (Some key) then
          secret ←$ attempt (base58_decode key);
          signer ←$ attempt (createKeyPairSignerFromBytes secret);
          _ ←$ emit (RegisterScheme Svm);
          ret (registerExactSvmScheme client signer)
        else ret client
    | None => ret client
    end;
  ret {| api_baseURL := baseURL cfg;
         api_timeout := requestTimeoutMs cfg;
         api_client := client |}.

(** [main], lines 119-272: build the client, register the two tools,
    connect the transport. *)
Definition main (cfg : Config) : traced PaidHttpClient :=
  api ←$ createPaidHttpClient cfg;
  _ ←$ emit (RegisterTool "get-weather");
  _ ←$ emit (RegisterTool "get-data-from-resource-server");
  _ ←$ emit Connect;
  ret api.

(** The state the process ends up in. *)
Inductive process :=
| Exited (code : Z)
| Serving (api : PaidHttpClient).

(** The module body, lines 13-28 and 275-278.  An exception escaping the
    module body ends the process with status 1, before [main] is called;
    so does the [catch] handler installed on [main()]. *)
Definition start (env : gmap string string) : list event * process :=
  let cfg := load StringToNumber env in
  if no_signer cfg then ([Exit 1%Z], Exited 1)
  else
    match main cfg with
    | (log, Some api) => (log, Serving api)
    | (log, None) => (log ++ [Exit 1%Z], Exited 1)
    end.

End startup.

Arguments PaidHttpClient Signer : clear implicits.
Arguments process Signer : clear implicits.

(** *** [getHeaderValue], lines 83-93 *)

(** [const direct = map[key] ?? map[key.toLowerCase()] ?? map[key.toUpperCase()]] *)
Definition direct (h : heap) (map : value) (key : string) : value :=
  get h map key ?? get h map (toLowerCase key) ?? get h map (toUpperCase key).

(** [None] is [undefined]. *)
Definition getHeaderValue (h : heap) (headers : value) (key : string)
  : option string :=
  if negb (truthy headers) || negb (bool_decide (typeof headers = TObject))
  then None
  else
    let direct := direct h headers key in
    if isArray h direct then
      match get h direct "0" with
      | VString s => Some s
      | _ => None
      end
    else
      match direct with
      | VString s => Some s
      | _ => None
      end.

(** *** [RawToolResult], lines 64-77 *)

Record Source := {
  url : string;
  path : string;
}.

(** [None] is [null] in the three optional fields. *)
Record Upstream := {
  status : option Z;
  payment_response_header : option string;
  x_payment_response_header : option string;
  data : value;
}.

Record RawToolResult := {
  ok : bool;
  source : Source;
  request : list (string * value);
  upstream : Upstream;
}.

Definition number_or_null (s : option Z) : value :=
  match s with
  | Some z => VNumber (Int z)
  | None => VNull
  end.

Definition string_or_null (s : option string) : value :=
  match s with
  | Some x => VString x
  | None => VNull
  end.

(** The object graph that a [RawToolResult] literal builds: the outer
    object and its three nested objects, allocated after everything already
    in the heap.  The [data] field holds the upstream's value itself (the
    same reference), not a copy. *)
Definition reify (h : heap) (r : RawToolResult) : heap * value :=
  let a := length h in
  (h ++ [ Obj [ ("ok", VBool (ok r));
                ("source", VRef (a + 1));
                ("request", VRef (a + 2));
                ("upstream", VRef (a + 3)) ];
          Obj [ ("url", VString (url (source r)));
                ("path", VString (path (source r))) ];
          Obj (request r);
          Obj [ ("status", number_or_null (status (upstream r)));
                ("payment_response_header",
                  string_or_null (payment_response_header (upstream r)));
                ("x_payment_response_header",
                  string_or_null (x_payment_response_header (upstream r)));
                ("data", data (upstream r)) ] ],
   VRef a).

(** *** [safeJsonStringify] and [toRawOutput], lines 96-110 *)

Definition fallback : object :=
  Obj [("error", VString "Failed to serialize response")].

(** What the fallback prints as. *)
Definition fallback_text : string :=
  Json.dq "{
  'error': 'Failed to serialize response'
}".

Definition safeJsonStringify (h : heap) (v : value)
  : completion Json.type_error (option string) :=
  match Json.stringify h v with
  | Throw _ =>
      let '(h', o) := alloc h fallback in
      Json.stringify h' o
  | c => c
  end.

Definition toRawOutput (h : heap) (result : RawToolResult)
  : completion Json.type_error (option string) :=
  let '(h', v) := reify h result in
  safeJsonStringify h' v.

(** *** The tool handlers, lines 127-267 *)

(** [api.get(path, { params })]: the heap as the call leaves it (it holds
    the parsed body and headers of whatever came back) and the settled
    promise. *)
Abbreviation Api := (string → list (string * value) → heap * Axios.settled).

Record TextContent := {
  type : string;
  text : option string;
}.

Record CallToolResult := {
  content : list TextContent;
}.

(** A result with one text item. *)
Definition one_text (text : string) : CallToolResult :=
  {| content := [ {| type := "text"; text := Some text |} ] |}.

(** The [upstream] section of the [try] branch. *)
Definition success_upstream (h : heap) (response : Axios.AxiosResponse)
  : Upstream := {|
  status := Some (default 200%Z (Axios.status response));
  payment_response_header :=
    getHeaderValue h (Axios.headers response) "payment-response";
  x_payment_response_header :=
    getHeaderValue h (Axios.headers response) "x-payment-response";
  data := Axios.data response;
|}.

(** The [upstream] section of the [catch] branch.  [error.response?.f] is
    [undefined] when there is no response; the [{ message }] literal is
    allocated only when it is needed. *)
Definition failure_upstream (h : heap) (error : Axios.thrown)
  : heap * Upstream :=
  match error with
  | Axios.AxiosError message response =>
      let headers := from_option Axios.headers VUndefined response in
      let body := from_option Axios.data VUndefined response in
      let '(h', d) :=
        if nullish body then alloc h (Obj [("message", VString message)])
        else (h, body) in
      (h', {| status := response ≫= Axios.status;
              payment_response_header :=
                getHeaderValue h headers "payment-response";
              x_payment_response_header :=
                getHeaderValue h headers "x-payment-response";
              data := d |})
  | Axios.OtherError _ _ =>
      let '(h', d) :=
        alloc h (Obj [("message", VString (Axios.to_string error))]) in
      (h', {| status := None;
              payment_response_header := None;
              x_payment_response_header := None;
              data := d |})
  end.

(** [return { content: [{ type: "text", text }] }] *)
Definition reply (text : completion Json.type_error (option string))
  : completion Json.type_error CallToolResult :=
  text ←! text;
  Normal {| content := [ {| type := "text"; text := text |} ] |}.

(** The body shared by the two handlers: [try { ... } catch (error) { ... }]
    around one awaited [api.get].  Anything thrown inside [try] lands in
    [catch]; anything thrown inside [catch] leaves the handler. *)
Definition handler (cfg : Config) (request : list (string * value))
    (call : heap * Axios.settled)
  : completion Axios.thrown CallToolResult :=
  let '(h, outcome) := call in
  let src := {| url := baseURL cfg; path := endpointPath cfg |} in
  let catch (error : Axios.thrown) :=
    let '(h', up) := failure_upstream h error in
    let result :=
      {| ok := false; source := src; request := request; upstream := up |} in
    match reply (toRawOutput h' result) with
    | Normal r => Normal r
    | Throw e => Throw (Axios.of_type_error e)
    | OutOfFuel => OutOfFuel
    end in
  match outcome with
  | Axios.Fulfilled response =>
      let result :=
        {| ok := true; source := src; request := request;
           upstream := success_upstream h response |} in
      match reply (toRawOutput h result) with
      | Normal r => Normal r
      | Throw e => catch (Axios.of_type_error e)
      | OutOfFuel => OutOfFuel
      end
  | Axios.Rejected error => catch error
  end.

(** [get-weather({ city, date })], lines 134-199. *)
Definition get_weather (api : Api) (cfg : Config)
    (city : string) (date : option string)
  : completion Axios.thrown CallToolResult :=
  handler cfg
    [ ("tool", VString "get-weather");
      ("city", VString city);
      ("date", string_or_null date) ]
    (api (endpointPath cfg)
         [ ("city", VString city);
           ("date", from_option VString VUndefined date) ]).

(** [get-data-from-resource-server()], lines 206-266. *)
Definition get_data_from_resource_server (api : Api) (cfg : Config)
  : completion Axios.thrown CallToolResult :=
  handler cfg
    [ ("tool", VString "get-data-from-resource-server") ]
    (api (endpointPath cfg) []).

(** *** Dispatch by tool name, lines 127-133 and 202-205 *)

(** A call as the host sends it: the tool and its validated arguments. *)
Inductive call :=
| GetWeather (city : string) (date : option string)
| GetDataFromResourceServer.

Definition invoke (api : Api) (cfg : Config) (c : call)
  : completion Axios.thrown CallToolResult :=
  match c with
  | GetWeather city date => get_weather api cfg city date
  | GetDataFromResourceServer => get_data_from_resource_server api cfg
  end.

End Server.

(** ** The envelope in the words of the design document *)

Module Envelope.

(** The request section: the tool name and its declared inputs. *)
Definition request (c : Server.call) : list (string * value) :=
  match c with
  | Server.GetWeather city date =>
      [ ("tool", VString "get-weather");
        ("city", VString city);
        ("date", match date with Some d => VString d | None => VNull end) ]
  | Server.GetDataFromResourceServer =>
      [ ("tool", VString "get-data-from-resource-server") ]
  end.

(** The query string of the GET the tool issues. *)
Definition query (c : Server.call) : list (string * value) :=
  match c with
  | Server.GetWeather city date =>
      [ ("city", VString city);
        ("date", match date with Some d => VString d | None => VUndefined end) ]
  | Server.GetDataFromResourceServer => []
  end.

Definition make (cfg : Server.Config) (c : Server.call) (ok : bool)
    (up : Server.Upstream) : Server.RawToolResult :=
  {| Server.ok := ok;
     Server.source := {| Server.url := Server.baseURL cfg;
                         Server.path := Server.endpointPath cfg |};
     Server.request := request c;
     Server.upstream := up |}.

End Envelope.

(** ** The payment-aware request executor *)

Module Executor.

(** Modelled from the spec: [wrapAxiosWithPayment] of [@x402/axios], the
    function that turns the plain axios instance into the [api] the
    handlers call; its code is not part of the server's source file.  The
    model follows the state machine of the design document (section 4.4)
    and the negotiator of section 4.3. *)

Section executor.

Context {Signer Terms Proof : Type}.

(** Modelled from the spec: a payment challenge, which [@x402/axios]
    reads off a 402 response: the scheme family it names, and the rest
    (amount, recipient, nonce), which only the signer looks at. *)
Record Challenge := {
  scheme : Server.family;
  terms : Terms;
}.

(** Modelled from the spec: an outbound request of the wrapped client;
    [payment] is the proof attached on the replay. *)
Record Request := {
  path : string;
  params : list (string * value);
  payment : option Proof;
}.

(** Modelled from the spec: what one network call of the wrapped client
    comes back with: a response (any status) with the heap holding its
    parsed body and headers, or a transport-level failure such as a
    timeout. *)
Inductive wire :=
| Response (h : heap) (r : Axios.AxiosResponse)
| TransportError (message : string).

(** The scheme registry, the extraction of the challenge from a 402
    response, the signer's proof production (which may fail), and the
    upstream, which answers the [n]-th call as it pleases. *)
Context (registry : gmap Server.family Signer).
Context (challenge_of : heap → Axios.AxiosResponse → Challenge).
Context (sign : Signer → Challenge → Axios.thrown + Proof).
Context (upstream : nat → Request → wire).

(** Modelled from the spec: the states of the executor of
    [wrapAxiosWithPayment]; [Succeeded] and [Failed] are terminal. *)
Inductive state :=
| Sending (req : Request)
| PaymentRequired (req : Request) (h : heap) (r : Axios.AxiosResponse)
| Negotiating (req : Request) (h : heap) (r : Axios.AxiosResponse)
    (c : Challenge)
| Retrying (req : Request)
| Succeeded (h : heap) (r : Axios.AxiosResponse)
| Failed (h : heap) (e : Axios.thrown).

(** Modelled from the spec: a response is [PaymentRequired] only on status
    402. *)
Definition payment_required (r : Axios.AxiosResponse) : bool :=
  bool_decide (Axios.status r = Some 402%Z).

(** Modelled from the spec: a 402 response surfaced to the caller as a
    failure, the response kept as it is. *)
Definition surfaced (r : Axios.AxiosResponse) : Axios.thrown :=
  Axios.AxiosError "Request failed with status code 402" (Some r).

(** Modelled from the spec: a transport failure carries no response. *)
Definition transport (message : string) : Axios.thrown :=
  Axios.AxiosError message None.

(** Modelled from the spec: the negotiator.  An absent family is the
    [UnsupportedSchemeError]; a signing failure is terminal too. *)
Inductive negotiated :=
| UnsupportedSchemeError
| SigningError (e : Axios.thrown)
| Signed (p : Proof).

Definition negotiate (c : Challenge) : negotiated :=
  match registry !! scheme c with
  | None => UnsupportedSchemeError
  | Some capability =>
      match sign capability c with
      | inl e => SigningError e
      | inr p => Signed p
      end
  end.

(** Modelled from the spec: the replayed request is a new request, the
    same as the original but for the proof attached. *)
Definition replay (req : Request) (p : Proof) : Request :=
  {| path := path req; params := params req; payment := Some p |}.

(** Modelled from the spec: how the answer to the original request is
    classified.  Only status 402 asks for payment; any other response is
    passed through; a transport failure is terminal. *)
Definition first_outcome (req : Request) (w : wire) : state :=
  match w with
  | Response h r =>
      if payment_required r then PaymentRequired req h r else Succeeded h r
  | TransportError m => Failed [] (transport m)
  end.

(** Modelled from the spec: how the answer to the replayed request is
    classified.  There is no second negotiation: a 402 is surfaced as it
    is. *)
Definition second_outcome (w : wire) : state :=
  match w with
  | Response h r =>
      if payment_required r then Failed h (surfaced r) else Succeeded h r
  | TransportError m => Failed [] (transport m)
  end.

(** Modelled from the spec: one transition of the executor.  The log is the
    list of requests put on the network so far; [None] marks a terminal
    state. *)
Definition step (s : state) (log : list Request)
  : option (state * list Request) :=
  match s with
  | Sending req =>
      Some (first_outcome req (upstream (length log) req), log ++ [req])
  | PaymentRequired req h r =>
      Some (Negotiating req h r (challenge_of h r), log)
  | Negotiating req h r c =>
      Some (match negotiate c with
            | UnsupportedSchemeError => Failed h (surfaced r)
            | SigningError e => Failed h e
            | Signed p => Retrying (replay req p)
            end, log)
  | Retrying req =>
      Some (second_outcome (upstream (length log) req), log ++ [req])
  | Succeeded _ _ | Failed _ _ => None
  end.

Fixpoint run (fuel : nat) (s : state) (log : list Request)
  : state * list Request :=
  match fuel with
  | O => (s, log)
  | S fuel' =>
      match step s log with
      | Some (s', log') => run fuel' s' log'
      | None => (s, log)
      end
  end.

(** Modelled from the spec: a run of the executor of
    [wrapAxiosWithPayment] from [Sending].  The longest path is [Sending],
    [PaymentRequired], [Negotiating], [Retrying], then a terminal state:
    four transitions. *)
Definition execute (req : Request) : state * list Request :=
  run 4 (Sending req) [].

(** Modelled from the spec: the promise of the wrapped client, settled
    once the executor has stopped. *)
Definition settle (s : state) : heap * Axios.settled :=
  match s with
  | Succeeded h r => (h, Axios.Fulfilled r)
  | Failed h e => (h, Axios.Rejected e)
  | _ => ([], Axios.Rejected (Axios.OtherError "Error" "pending"))
  end.

(** Modelled from the spec: [api.get(path, { params })] on the client that
    [wrapAxiosWithPayment] returns. *)
Definition api : Server.Api :=
  λ path params,
    settle (execute {| path := path; params := params; payment := None |}).1.

(** The transition relation, for statements about every reachable
    configuration. *)
Definition steps : relation (state * list Request) :=
  λ c c', step c.1 c.2 = Some c'.

(** How many network calls a state can have behind it. *)
Definition budget (s : state) : nat :=
  match s with
  | Sending _ => 0
  | PaymentRequired _ _ _ | Negotiating _ _ _ _ | Retrying _ => 1
  | Succeeded _ _ | Failed _ _ => 2
  end.

End executor.

End Executor.

(** ** Sample inputs *)

Module Sample.

(** An environment with the EVM secret only. *)
Definition env : gmap string string := {["EVM_PRIVATE_KEY" := "0xabc"]}.

Definition cfg : Server.Config := Server.load (λ _, NaN) env.

(** Signer libraries that accept every secret. *)
Definition start (e : gmap string string)
  : list Server.event * Server.process unit :=
  Server.start (λ _, NaN) (λ _ : string, Some tt) (λ _ : string, Some tt)
    (λ _ : unit, Some tt) e.

(** Signer libraries of which the SVM one rejects every secret. *)
Definition start_strict (e : gmap string string)
  : list Server.event * Server.process unit :=
  Server.start (λ _, NaN) (λ _ : string, Some tt) (λ _ : string, None)
    (λ _ : unit, Some tt) e.

(** Headers as axios leaves them (lower case), with the receipt as a list,
    and the same with the name in title case. *)
Definition receipt_heap (name : string) : heap :=
  [Obj [(name, VRef 1)]; Arr [VString "receipt"; VString "other"]].

(** A weather body [{"temp": 21}] and empty headers. *)
Definition weather_heap : heap := [Obj [("temp", VNumber (Int 21))]; Obj []].

Definition weather_response : Axios.AxiosResponse :=
  {| Axios.status := Some 200%Z; Axios.headers := VRef 1; Axios.data := VRef 0 |}.

Definition weather_api : Server.Api :=
  λ _ _, (weather_heap, Axios.Fulfilled weather_response).

(** A request that times out. *)
Definition timeout : Axios.thrown :=
  Axios.AxiosError "timeout of 15000ms exceeded" None.

Definition timeout_api : Server.Api := λ _ _, ([], Axios.Rejected timeout).

(** An upstream that asks for payment on every call, with a challenge that
    names the family given. *)
Definition challenge_heap (family : string) : heap :=
  [Obj [("family", VString family); ("amount", VNumber (Int 1000))]].

Definition challenge_response : Axios.AxiosResponse :=
  {| Axios.status := Some 402%Z; Axios.headers := VUndefined;
     Axios.data := VRef 0 |}.

Definition insatiable (family : string)
  : nat → Executor.Request (Proof := unit) → Executor.wire :=
  λ _ _, Executor.Response (challenge_heap family) challenge_response.

(** An upstream that asks for payment until it sees a proof. *)
Definition paid (family : string)
  : nat → Executor.Request (Proof := unit) → Executor.wire :=
  λ _ req,
    match Executor.payment req with
    | Some _ => Executor.Response weather_heap weather_response
    | None => Executor.Response (challenge_heap family) challenge_response
    end.

Definition challenge_of (h : heap) (r : Axios.AxiosResponse)
  : Executor.Challenge (Terms := unit) :=
  {| Executor.scheme :=
       match get h (Axios.data r) "family" with
       | VString "evm" => Server.Evm
       | _ => Server.Svm
       end;
     Executor.terms := tt |}.

Definition sign (capability : unit) (c : Executor.Challenge (Terms := unit))
  : Axios.thrown + unit := inr tt.

(** The registry of a process started with the EVM secret only. *)
Definition registry : gmap Server.family unit := {[Server.Evm := tt]}.

Definition api (upstream : nat → Executor.Request (Proof := unit) → Executor.wire)
  : Server.Api :=
  Executor.api registry challenge_of sign upstream.

End Sample.

(** ** Header names as Node delivers them *)

Module Node.

(** Node's HTTP parser lower-cases the names of incoming headers; this is
    the test that an object has such names only. *)
Definition lower_named (o : object) : bool :=
  match o with
  | Obj props =>
      forallb (λ kv, String.eqb (toLowerCase kv.1) kv.1) props
  | Arr _ => false
  end.

End Node.

(** ** Corner cases *)

Module Corner.

(** A body that refers to itself. *)
Definition cyclic_heap : heap := [Obj [("self", VRef 0)]].

Definition cyclic_response : Axios.AxiosResponse :=
  {| Axios.status := Some 200%Z; Axios.headers := VUndefined;
     Axios.data := VRef 0 |}.

Definition cyclic_api : Server.Api :=
  λ _ _, (cyclic_heap, Axios.Fulfilled cyclic_response).

End Corner.

(** ** What came back *)

Module Outcome.

(** The body the handler will put in [data], when there is one: the
    response's, or the one of the response an axios error carries. *)
Definition body (outcome : Axios.settled) : value :=
  match outcome with
  | Axios.Fulfilled response => Axios.data response
  | Axios.Rejected (Axios.AxiosError _ (Some response)) => Axios.data response
  | Axios.Rejected _ => VUndefined
  end.

End Outcome.

(** ** Header values the document calls recorded *)

Module Receipt.

(** A receipt header as the design document has it recorded: the string
    kept under the header's name, or the first of a list of strings kept
    there; nothing ([None], printed as [null]) when the response has no
    headers object, or the object has no property under the name, its
    lower-case form or its upper-case form. *)
Inductive recorded (h : heap) (headers : value) (name : string)
  : option string → Prop :=
| recorded_string a o s :
    headers = VRef a → h !! a = Some o →
    get_own o name = VString s →
    recorded h headers name (Some s)
| recorded_first a o b s rest :
    headers = VRef a → h !! a = Some o →
    get_own o name = VRef b → h !! b = Some (Arr (VString s :: rest)) →
    recorded h headers name (Some s)
| recorded_no_headers :
    headers = VUndefined ∨ headers = VNull →
    recorded h headers name None
| recorded_absent a props :
    headers = VRef a → h !! a = Some (Obj props) →
    name ∉ props.*1 → toLowerCase name ∉ props.*1 →
    toUpperCase name ∉ props.*1 →
    recorded h headers name None.

End Receipt.

(** ** The envelope as text *)

Module Text.

(** The output envelope of the design document, written out as the JSON
    text a client reads: members in the order of the document, two spaces
    of indentation per level. *)

Definition boolean (b : bool) : string := if b then "true" else "false".

(** A number as [JSON.stringify] prints it. *)
Definition number (z : Z) : string :=
  match Json.stringify [] (VNumber (Int z)) with
  | Normal (Some text) => text
  | _ => "null"
  end.

Definition number_or_null (n : option Z) : string :=
  match n with
  | Some z => number z
  | None => "null"
  end.

Definition string_or_null (s : option string) : string :=
  match s with
  | Some x => Json.quote x
  | None => "null"
  end.

(** The [request] member: the tool name and its declared inputs. *)
Definition request (c : Server.call) : string :=
  match c with
  | Server.GetWeather city date =>
      Json.dq "{
    'tool': 'get-weather',
    'city': " +:+ Json.quote city +:+ Json.dq ",
    'date': " +:+ string_or_null date +:+ Json.dq "
  }"
  | Server.GetDataFromResourceServer =>
      Json.dq "{
    'tool': 'get-data-from-resource-server'
  }"
  end.

(** The text of a value that stands where [data] stands, two levels deep:
    what [JSON.stringify(v, null, 2)] prints, each line after the first
    moved four spaces to the right.  [Normal None] is a value that does
    not print ([undefined], a function). *)
Definition body (h : heap) (v : value)
  : completion Json.type_error (option string) :=
  Json.serialize (S (length h)) h [] "    " v.

(** The [data] member; a member whose value does not print is left out. *)
Definition data_member (body : option string) : string :=
  match body with
  | Some b => Json.dq ",
    'data': " +:+ b
  | None => EmptyString
  end.

(** The object [{ message: text }] where [data] stands. *)
Definition message (text : string) : string :=
  Json.dq "{
      'message': " +:+ Json.quote text +:+ Json.dq "
    }".

Definition envelope (cfg : Server.Config) (c : Server.call) (ok : bool)
    (status : option Z) (payment_response x_payment_response : option string)
    (body : option string) : string :=
  Json.dq "{
  'ok': " +:+ boolean ok +:+ Json.dq ",
  'source': {
    'url': " +:+ Json.quote (Server.baseURL cfg) +:+ Json.dq ",
    'path': " +:+ Json.quote (Server.endpointPath cfg) +:+ Json.dq "
  },
  'request': " +:+ request c +:+ Json.dq ",
  'upstream': {
    'status': " +:+ number_or_null status +:+ Json.dq ",
    'payment_response_header': " +:+ string_or_null payment_response
  +:+ Json.dq ",
    'x_payment_response_header': " +:+ string_or_null x_payment_response
  +:+ data_member body +:+ Json.dq "
  }
}".

End Text.

(** ** What the envelope is to say of a settled call *)

Module Settled.

(** [ok]: whether [api.get] resolved. *)
Definition ok (outcome : Axios.settled) : bool :=
  match outcome with
  | Axios.Fulfilled _ => true
  | Axios.Rejected _ => false
  end.

(** The response the handler can see: the one [api.get] resolved with, or
    the one an axios error carries. *)
Definition response (outcome : Axios.settled) : option Axios.AxiosResponse :=
  match outcome with
  | Axios.Fulfilled r => Some r
  | Axios.Rejected (Axios.AxiosError _ r) => r
  | Axios.Rejected (Axios.OtherError _ _) => None
  end.

(** [upstream.status]: 200 for a resolved response without a status; the
    status of the response an axios error carries; [null] otherwise. *)
Definition status (outcome : Axios.settled) : option Z :=
  match outcome with
  | Axios.Fulfilled r => Some (default 200%Z (Axios.status r))
  | Axios.Rejected _ => response outcome ≫= Axios.status
  end.

Definition headers (outcome : Axios.settled) : value :=
  from_option Axios.headers VUndefined (response outcome).

(** The text an error is reported with: [error.message] for an axios
    error, [String(error)] for any other. *)
Definition carried (error : Axios.thrown) : string :=
  match error with
  | Axios.AxiosError m _ => m
  | Axios.OtherError _ _ => Axios.to_string error
  end.

(** The text of [upstream.data]: the body of a resolved response; for a
    rejection, the body of the carried response unless it is [undefined]
    or [null], and otherwise the object holding the error's text. *)
Definition data (h : heap) (outcome : Axios.settled)
  : completion Json.type_error (option string) :=
  match outcome with
  | Axios.Fulfilled r => Text.body h (Axios.data r)
  | Axios.Rejected error =>
      if nullish (Outcome.body outcome)
      then Normal (Some (Text.message (carried error)))
      else Text.body h (Outcome.body outcome)
  end.

End Settled.

(** ** A failed call as the design document speaks of it *)

Module Failed.

(** The response the HTTP layer received, if one was, and the value
    [api.get] rejected with.  The second need not carry the first: the
    handlers provide for an error that is not an axios error (lines 180 to
    187), which carries no response. *)
Record call := {
  received : option Axios.AxiosResponse;
  rejection : Axios.thrown;
}.

(** The status the document puts in the envelope: that of the response
    received, [null] without one. *)
Definition documented_status (f : call) : option Z :=
  received f ≫= Axios.status.

End Failed.

(** ** Header names *)

Module Header.

(** A name made of ASCII characters with a hyphen among them, as
    [payment-response] and [x-payment-response] are.  No object inherits a
    member under such a name (the members of [Object.prototype] and of the
    other built-in prototypes are named by identifiers), so reading it
    from an object reads an own property or nothing; and upper and lower
    case of such a name are those of ASCII. *)
Definition dashed (key : string) : bool :=
  forallb (λ c, (nat_of_ascii c <? 128)%nat) (list_ascii_of_string key)
  && existsb (Ascii.eqb "-"%char) (list_ascii_of_string key).

End Header.

(** * Properties *)

(** ** The serializer always answers *)

Section serializer_facts.

Import Json.

Lemma members_fuel {E} (go : value → completion E (option string)) props :
  (∀ v, go v ≠ OutOfFuel) → members go props ≠ OutOfFuel.
Proof.
  intros Hgo. induction props as [|[k v] ps IH]; simpl; [done|].
  specialize (Hgo v). destruct (go v) as [strP| |]; simpl; [|done|done].
  destruct (members go ps); simpl; done.
Qed.

Lemma elements_fuel {E} (go : value → completion E (option string)) elems :
  (∀ v, go v ≠ OutOfFuel) → elements go elems ≠ OutOfFuel.
Proof.
  intros Hgo. induction elems as [|v vs IH]; simpl; [done|].
  specialize (Hgo v). destruct (go v) as [strP| |]; simpl; [|done|done].
  destruct (elements go vs); simpl; done.
Qed.

(** A stack of distinct addresses of a heap is no longer than the heap. *)
Lemma stack_bound (stack : list addr) (n : nat) :
  NoDup stack → Forall (λ a, a < n) stack → length stack ≤ n.
Proof.
  intros Hnd Hlt.
  assert (Hsub : stack ⊆+ seq 0 n).
  { apply NoDup_submseteq; [done|].
    intros a Ha. rewrite Forall_forall in Hlt. apply elem_of_seq.
    specialize (Hlt a Ha). lia. }
  apply submseteq_length in Hsub. by rewrite length_seq in Hsub.
Qed.

(** Each descent pushes a new address of the heap, so the fuel that is
    left, plus the depth reached, stays above the size of the heap. *)
Lemma serialize_fuel h fuel stack indent v :
  NoDup stack → Forall (λ a, a < length h) stack →
  length h < fuel + length stack →
  serialize fuel h stack indent v ≠ OutOfFuel.
Proof.
  revert stack indent v.
  induction fuel as [|fuel IH]; intros stack indent v Hnd Hlt Hfuel.
  - pose proof (stack_bound stack (length h) Hnd Hlt).
    destruct v as [| |[]|[]| | | |a]; simpl; try done.
    case_bool_decide; [done|]. exfalso. simpl in Hfuel. lia.
  - destruct v as [| |[]|[]| | | |a]; simpl; try done.
    case_bool_decide as Hin; [done|].
    destruct (h !! a) as [[props|elems]|] eqn:Ha; [| |done].
    + assert (Hgo : ∀ v, serialize fuel h (a :: stack) (indent +:+ gap) v
                          ≠ OutOfFuel).
      { intros v. apply IH.
        - by constructor.
        - constructor; [by eapply lookup_lt_Some|done].
        - simpl. lia. }
      pose proof (members_fuel _ props Hgo) as Hm.
      destruct (members _ props); simpl; done.
    + assert (Hgo : ∀ v, serialize fuel h (a :: stack) (indent +:+ gap) v
                          ≠ OutOfFuel).
      { intros v. apply IH.
        - by constructor.
        - constructor; [by eapply lookup_lt_Some|done].
        - simpl. lia. }
      pose proof (elements_fuel _ elems Hgo) as Hm.
      destruct (elements _ elems); simpl; done.
Qed.

Lemma stringify_fuel h v : stringify h v ≠ OutOfFuel.
Proof.
  apply serialize_fuel; [constructor|constructor|simpl; lia].
Qed.

(** An object or an array never serializes to [undefined]. *)
Lemma serialize_ref_some fuel h stack indent a r :
  serialize fuel h stack indent (VRef a) = Normal r → is_Some r.
Proof.
  destruct fuel as [|fuel]; simpl.
  - case_bool_decide; done.
  - case_bool_decide; [done|].
    destruct (h !! a) as [[props|elems]|].
    + destruct (members _ props); simpl; [|done|done]. intros [= <-]. eauto.
    + destruct (elements _ elems); simpl; [|done|done]. intros [= <-]. eauto.
    + intros [= <-]. eauto.
Qed.

End serializer_facts.

(** ** [safeJsonStringify] always returns text *)

Lemma stringify_fallback h :
  Json.stringify (h ++ [Server.fallback]) (VRef (length h))
  = Normal (Some Server.fallback_text).
Proof.
  unfold Json.stringify. rewrite length_app, Nat.add_1_r. simpl.
  rewrite lookup_app_r, Nat.sub_diag by lia. reflexivity.
Qed.

Lemma safeJsonStringify_ref h a :
  ∃ text, Server.safeJsonStringify h (VRef a) = Normal (Some text).
Proof.
  unfold Server.safeJsonStringify.
  destruct (Json.stringify h (VRef a)) as [r|e|] eqn:Hs.
  - destruct (serialize_ref_some _ _ _ _ _ _ Hs) as [text ->]. eauto.
  - simpl. rewrite stringify_fallback. eauto.
  - by destruct (stringify_fuel h (VRef a)).
Qed.

Lemma toRawOutput_text h result :
  ∃ text, Server.toRawOutput h result = Normal (Some text).
Proof. unfold Server.toRawOutput. simpl. apply safeJsonStringify_ref. Qed.

(** ** The handlers *)

Lemma handler_fulfilled cfg request h response text :
  Server.toRawOutput h
    {| Server.ok := true;
       Server.source := {| Server.url := Server.baseURL cfg;
                           Server.path := Server.endpointPath cfg |};
       Server.request := request;
       Server.upstream := Server.success_upstream h response |}
  = Normal (Some text) →
  Server.handler cfg request (h, Axios.Fulfilled response)
  = Normal (Server.one_text text).
Proof. intros Ht. unfold Server.handler. by rewrite Ht. Qed.

Lemma handler_rejected cfg request h error text :
  Server.toRawOutput (Server.failure_upstream h error).1
    {| Server.ok := false;
       Server.source := {| Server.url := Server.baseURL cfg;
                           Server.path := Server.endpointPath cfg |};
       Server.request := request;
       Server.upstream := (Server.failure_upstream h error).2 |}
  = Normal (Some text) →
  Server.handler cfg request (h, Axios.Rejected error)
  = Normal (Server.one_text text).
Proof.
  intros Ht. unfold Server.handler.
  destruct (Server.failure_upstream h error) as [h' up]. simpl in Ht.
  by rewrite Ht.
Qed.

(** Whatever [api.get] settles to, the handler body returns one text item
    holding the output of [toRawOutput] on a result it built. *)
Lemma handler_returns cfg request call :
  ∃ h result text,
    Server.request result = request
    ∧ Server.toRawOutput h result = Normal (Some text)
    ∧ Server.handler cfg request call = Normal (Server.one_text text).
Proof.
  destruct call as [h [response|error]].
  - edestruct toRawOutput_text as [text Ht].
    eexists h, _, text. split; [|split; [exact Ht|by apply handler_fulfilled]].
    reflexivity.
  - edestruct toRawOutput_text as [text Ht].
    eexists _, _, text. split; [|split; [exact Ht|by apply handler_rejected]].
    reflexivity.
Qed.

(** ** When the serializer raises nothing *)

Section no_throw.

Import Json.

Lemma members_no_throw {E} (go : value → completion E (option string)) props :
  (∀ v, v ∈ props.*2 → ∀ e, go v ≠ Throw e) →
  ∀ e, members go props ≠ Throw e.
Proof.
  induction props as [|[k v] ps IH]; simpl; intros Hgo e; [done|].
  pose proof (Hgo v (list_elem_of_here _ _)) as Hv.
  destruct (go v) as [strP|e'|]; simpl; [|by destruct (Hv e')|done].
  assert (Hps : members go ps ≠ Throw e).
  { apply IH. intros v' Hv'. apply Hgo. by right. }
  destruct (members go ps); simpl; congruence.
Qed.

Lemma elements_no_throw {E} (go : value → completion E (option string)) elems :
  (∀ v, v ∈ elems → ∀ e, go v ≠ Throw e) →
  ∀ e, elements go elems ≠ Throw e.
Proof.
  induction elems as [|v vs IH]; simpl; intros Hgo e; [done|].
  pose proof (Hgo v (list_elem_of_here _ _)) as Hv.
  destruct (go v) as [strP|e'|]; simpl; [|by destruct (Hv e')|done].
  assert (Hvs : elements go vs ≠ Throw e).
  { apply IH. intros v' Hv'. apply Hgo. by right. }
  destruct (elements go vs); simpl; congruence.
Qed.

Lemma members_normal {E} (go : value → completion E (option string)) props p :
  members go props = Normal p → ∀ v, v ∈ props.*2 → ∃ r, go v = Normal r.
Proof.
  revert p. induction props as [|[k v] ps IH]; simpl; intros p Hp v' Hv'.
  - by apply elem_of_nil in Hv'.
  - destruct (go v) as [strP| |] eqn:Hv; simpl in Hp; [|done|done].
    destruct (members go ps) as [rest| |] eqn:Hps; simpl in Hp; [|done|done].
    apply elem_of_cons in Hv' as [->|Hv']; [eauto|by eapply IH].
Qed.

Lemma elements_normal {E} (go : value → completion E (option string)) elems p :
  elements go elems = Normal p → ∀ v, v ∈ elems → ∃ r, go v = Normal r.
Proof.
  revert p. induction elems as [|v vs IH]; simpl; intros p Hp v' Hv'.
  - by apply elem_of_nil in Hv'.
  - destruct (go v) as [strP| |] eqn:Hv; simpl in Hp; [|done|done].
    destruct (elements go vs) as [rest| |] eqn:Hvs; simpl in Hp; [|done|done].
    apply elem_of_cons in Hv' as [->|Hv']; [eauto|by eapply IH].
Qed.

Lemma closed_lookup h a o v :
  closed h = true → h !! a = Some o → v ∈ fields o → in_heap h v = true.
Proof.
  unfold closed. intros Hc Ha Hv.
  apply Is_true_true, forallb_True in Hc. rewrite Forall_forall in Hc.
  specialize (Hc o (list_elem_of_lookup_2 _ _ _ Ha)).
  apply forallb_True in Hc. rewrite Forall_forall in Hc.
  by apply Is_true_true, Hc.
Qed.

(** An object outside the stack whose fields are safe is safe. *)
Lemma safe_ref h stack a :
  a ∉ stack →
  (∀ o, h !! a = Some o → ∀ v, v ∈ fields o → safe h (a :: stack) v) →
  safe h stack (VRef a).
Proof.
  intros Hin Hfields [|fuel] indent e; simpl.
  - rewrite bool_decide_eq_false_2 by done. done.
  - rewrite bool_decide_eq_false_2 by done.
    destruct (h !! a) as [[props|elems]|] eqn:Ha; [| |done].
    + pose proof (members_no_throw
        (serialize fuel h (a :: stack) (indent +:+ gap)) props) as Hm.
      specialize (Hm (λ v Hv e', Hfields _ eq_refl v Hv fuel _ e') e).
      destruct (members _ props); simpl; congruence.
    + pose proof (elements_no_throw
        (serialize fuel h (a :: stack) (indent +:+ gap)) elems) as Hm.
      specialize (Hm (λ v Hv e', Hfields _ eq_refl v Hv fuel _ e') e).
      destruct (elements _ elems); simpl; congruence.
Qed.

(** The values that print without looking at the heap. *)
Lemma safe_plain h stack v : plain v = true → safe h stack v.
Proof.
  intros Hv [|fuel] indent e; destruct v as [| |[]|[]| | | |a]; simpl; done.
Qed.

(** A value that serializes in a closed heap still does once the heap has
    grown at its end and the stack holds new cells only. *)
Lemma serialize_extend h ext :
  closed h = true →
  ∀ fuel stack indent v r stack',
    in_heap h v = true →
    (∀ x, x < length h → x ∈ stack' → x ∈ stack) →
    serialize fuel h stack indent v = Normal r →
    safe (h ++ ext) stack' v.
Proof.
  intros Hc. induction fuel as [|fuel IH];
    intros stack indent v r stack' Hv Hst Hs.
  - destruct v as [| |[]|[]| | | |a]; try (by apply safe_plain); simpl in Hs.
    by case_bool_decide.
  - destruct v as [| |[]|[]| | | |a]; try (by apply safe_plain); simpl in Hs.
    case_bool_decide as Hin; [done|].
    simpl in Hv. apply bool_decide_eq_true in Hv.
    apply safe_ref.
    + intros Hin'. by apply Hin, Hst.
    + intros o Ho v Hfield. rewrite lookup_app_l in Ho by done.
      rewrite Ho in Hs.
      assert (Hst' : ∀ x, x < length h → x ∈ a :: stack' → x ∈ a :: stack).
      { intros x Hx [->|Hx']%elem_of_cons; [by left|right; by apply Hst]. }
      pose proof (closed_lookup _ _ _ _ Hc Ho Hfield) as Hv'.
      destruct o as [props|elems]; simpl in Hfield.
      * destruct (members _ props) as [p| |] eqn:Hm; simpl in Hs; [|done|done].
        destruct (members_normal _ _ _ Hm v Hfield) as [r' Hr'].
        by eapply IH.
      * destruct (elements _ elems) as [p| |] eqn:Hm; simpl in Hs; [|done|done].
        destruct (elements_normal _ _ _ Hm v Hfield) as [r' Hr'].
        by eapply IH.
Qed.

(** *** Parsed bodies print *)

Lemma downward_lookup h n a o v :
  downward_from n h = true → h !! a = Some o → v ∈ fields o →
  below (n + a) v = true.
Proof.
  revert n a. induction h as [|o' h IH]; intros n a Hd Ha Hv; [done|].
  simpl in Hd. apply andb_true_iff in Hd as [Ho Hh].
  destruct a as [|a]; simpl in Ha.
  - injection Ha as ->. rewrite Nat.add_0_r.
    apply Is_true_true, forallb_True in Ho. rewrite Forall_forall in Ho.
    by apply Is_true_true, Ho.
  - replace (n + S a) with (S n + a) by lia. by eapply IH.
Qed.

Lemma downward_safe h :
  downward h = true →
  ∀ a stack, (∀ x, x ∈ stack → a < x) → safe h stack (VRef a).
Proof.
  intros Hd a. induction (lt_wf a) as [a _ IH]. intros stack Hstack.
  apply safe_ref.
  - intros Hin. specialize (Hstack a Hin). lia.
  - intros o Ho v Hv.
    pose proof (downward_lookup h 0 a o v Hd Ho Hv) as Hbelow. simpl in Hbelow.
    destruct v as [| |b|n|s|z| |b]; try (by apply safe_plain).
    simpl in Hbelow. apply bool_decide_eq_true in Hbelow.
    apply IH; [done|]. intros x [->|Hx]%elem_of_cons; [done|].
    specialize (Hstack x Hx). lia.
Qed.

Lemma downward_closed h : downward h = true → closed h = true.
Proof.
  intros Hd. unfold closed.
  apply Is_true_true, forallb_True, Forall_forall. intros o Ho.
  apply forallb_True, Forall_forall. intros v Hv.
  apply list_elem_of_lookup in Ho as [a Ha].
  pose proof (downward_lookup h 0 a o v Hd Ha Hv) as Hbelow. simpl in Hbelow.
  apply lookup_lt_Some in Ha.
  destruct v; simpl in *; try done.
  apply Is_true_true, bool_decide_eq_true. apply bool_decide_eq_true in Hbelow.
  lia.
Qed.

(** Every value of such a heap serializes. *)
Lemma downward_prints h v :
  downward h = true → below (length h) v = true →
  in_heap h v = true ∧ ∃ r, stringify h v = Normal r.
Proof.
  intros Hd Hv. split; [by destruct v|].
  assert (Hsafe : safe h [] v).
  { destruct v as [| |b|n|s|z| |b]; try (by apply safe_plain).
    apply downward_safe; [done|]. intros x Hx. by apply elem_of_nil in Hx. }
  pose proof (stringify_fuel h v) as Hfuel.
  unfold stringify in *.
  destruct (serialize _ h [] _ v) as [r|e|] eqn:Hs; [eauto| |done].
  by destruct (Hsafe _ _ _ Hs).
Qed.

End no_throw.

(** ** The text is the envelope whenever the body prints *)

Section envelope_text.

Import Json.

Lemma reify_lookup h result k :
  (Server.reify h result).1 !! (length h + k)
  = [ Obj [ ("ok", VBool (Server.ok result));
            ("source", VRef (length h + 1));
            ("request", VRef (length h + 2));
            ("upstream", VRef (length h + 3)) ];
      Obj [ ("url", VString (Server.url (Server.source result)));
            ("path", VString (Server.path (Server.source result))) ];
      Obj (Server.request result);
      Obj [ ("status", Server.number_or_null
                         (Server.status (Server.upstream result)));
            ("payment_response_header",
              Server.string_or_null
                (Server.payment_response_header (Server.upstream result)));
            ("x_payment_response_header",
              Server.string_or_null
                (Server.x_payment_response_header (Server.upstream result)));
            ("data", Server.data (Server.upstream result)) ] ] !! k.
Proof.
  unfold Server.reify. simpl. rewrite lookup_app_r by lia.
  by replace (length h + k - length h) with k by lia.
Qed.

(** The four objects of the envelope are distinct and fresh, so the only
    way for its serialization to raise is through [data]. *)
Lemma reify_safe h result :
  (∀ v, v ∈ (Server.request result).*2 → plain v = true) →
  safe (Server.reify h result).1 [length h + 3; length h]
       (Server.data (Server.upstream result)) →
  safe (Server.reify h result).1 [] (Server.reify h result).2.
Proof.
  intros Hreq Hdata. change (Server.reify h result).2 with (VRef (length h)).
  apply safe_ref; [apply not_elem_of_nil|]. intros o Ho v Hv.
  pose proof (reify_lookup h result 0) as H0.
  rewrite Nat.add_0_r, Ho in H0. simpl in H0. injection H0 as ->.
  simpl in Hv. set_unfold in Hv.
  destruct Hv as [->|[->|[->|[->|[]]]]].
  - by apply safe_plain.
  - apply safe_ref; [set_unfold; lia|]. intros o Ho' v Hv.
    rewrite reify_lookup in Ho'. simpl in Ho'. injection Ho' as <-.
    simpl in Hv. set_unfold in Hv.
    destruct Hv as [->|[->|[]]]; by apply safe_plain.
  - apply safe_ref; [set_unfold; lia|]. intros o Ho' v Hv.
    rewrite reify_lookup in Ho'. simpl in Ho'. injection Ho' as <-.
    by apply safe_plain, Hreq.
  - apply safe_ref; [set_unfold; lia|]. intros o Ho' v Hv.
    rewrite reify_lookup in Ho'. simpl in Ho'. injection Ho' as <-.
    simpl in Hv. set_unfold in Hv.
    destruct Hv as [->|[->|[->|[->|[]]]]].
    + apply safe_plain.
      by destruct (Server.status (Server.upstream result)).
    + apply safe_plain.
      by destruct (Server.payment_response_header (Server.upstream result)).
    + apply safe_plain.
      by destruct (Server.x_payment_response_header (Server.upstream result)).
    + intros fuel indent e. apply Hdata.
Qed.

(** With nothing raised, [toRawOutput] is [JSON.stringify] on the envelope:
    the fallback is not used. *)
Lemma toRawOutput_safe h result :
  safe (Server.reify h result).1 [] (Server.reify h result).2 →
  ∃ text,
    Server.toRawOutput h result = Normal (Some text)
    ∧ stringify (Server.reify h result).1 (Server.reify h result).2
      = Normal (Some text).
Proof.
  intros Hsafe. unfold Server.toRawOutput, Server.safeJsonStringify.
  change (Server.reify h result)
    with ((Server.reify h result).1, VRef (length h)) at 1.
  cbv iota beta. change (VRef (length h)) with (Server.reify h result).2.
  destruct (stringify _ _) as [r|e|] eqn:Hs.
  - destruct (serialize_ref_some _ _ _ _ _ _ Hs) as [text ->]. eauto.
  - by destruct (Hsafe _ _ _ Hs).
  - by destruct (stringify_fuel _ _ Hs).
Qed.

Lemma request_plain c v : v ∈ (Envelope.request c).*2 → plain v = true.
Proof.
  intros Hv. destruct c as [city [d|]|]; simpl in Hv;
    repeat (apply elem_of_cons in Hv as [->|Hv]; [done|]);
    by apply elem_of_nil in Hv.
Qed.

(** A body that prints in a closed heap makes the whole envelope print. *)
Lemma envelope_prints h cfg c ok up r :
  closed h = true →
  in_heap h (Server.data up) = true →
  stringify h (Server.data up) = Normal r →
  ∃ text,
    Server.toRawOutput h (Envelope.make cfg c ok up) = Normal (Some text)
    ∧ stringify (Server.reify h (Envelope.make cfg c ok up)).1
                (Server.reify h (Envelope.make cfg c ok up)).2
      = Normal (Some text).
Proof.
  intros Hc Hin Hs. apply toRawOutput_safe, reify_safe.
  - apply request_plain.
  - eapply serialize_extend; [done|done| |exact Hs].
    intros x Hx. set_unfold. lia.
Qed.

End envelope_text.

(** ** Strings and dispatch *)

Lemma string_app_empty_r (s : string) : s +:+ EmptyString = s.
Proof.
  induction s as [|ch s IH]; [done|].
  change (String ch (s +:+ EmptyString) = String ch s). by rewrite IH.
Qed.

Lemma string_app_assoc (s t u : string) : s +:+ t +:+ u = (s +:+ t) +:+ u.
Proof.
  induction s as [|ch s IH]; [done|].
  change (String ch (s +:+ t +:+ u) = String ch ((s +:+ t) +:+ u)).
  by rewrite IH.
Qed.

Lemma invoke_handler api cfg c :
  Server.invoke api cfg c
  = Server.handler cfg (Envelope.request c)
      (api (Server.endpointPath cfg) (Envelope.query c)).
Proof. by destruct c as [city [d|]|]. Qed.

(** C8.  [safeJsonStringify] never throws.  On an object it returns what
    [JSON.stringify] returns when that is a string, and the serialized
    fallback [{ error: "Failed to serialize response" }] when
    [JSON.stringify] raises (a reference cycle, a BigInt); in particular
    [toRawOutput] returns a string on every result envelope. *)
Theorem safeJsonStringify_never_throws h a :
  match Json.stringify h (VRef a) with
  | Normal r =>
      ∃ text, r = Some text
              ∧ Server.safeJsonStringify h (VRef a) = Normal (Some text)
  | Throw _ =>
      Server.safeJsonStringify h (VRef a) = Normal (Some Server.fallback_text)
      ∧ Json.stringify (h ++ [Server.fallback]) (VRef (length h))
        = Normal (Some Server.fallback_text)
  | OutOfFuel => False
  end
  ∧ ∀ result, ∃ text, Server.toRawOutput h result = Normal (Some text).
Proof.
  split; [|apply toRawOutput_text].
  unfold Server.safeJsonStringify.
  destruct (Json.stringify h (VRef a)) as [r|e|] eqn:Hs.
  - destruct (serialize_ref_some _ _ _ _ _ _ Hs) as [text ->]. eauto.
  - simpl. by rewrite stringify_fallback.
  - by destruct (stringify_fuel h (VRef a)).
Qed.

(** A result whose [data] is its own ancestor prints as the fallback. *)
Example safeJsonStringify_cycle :
  Json.stringify [Obj [("self", VRef 0)]] (VRef 0) = Throw Json.circular
  ∧ Server.safeJsonStringify [Obj [("self", VRef 0)]] (VRef 0)
    = Normal (Some Server.fallback_text).
Proof. split; reflexivity. Qed.

(** The example of the design document: status 200, body [{"temp": 21}],
    [get-weather(city = "Beijing")].  Its body is parsed JSON. *)
Example weather_heap_parsed :
  downward Sample.weather_heap = true
  ∧ below (length Sample.weather_heap) (Axios.data Sample.weather_response)
    = true.
Proof. split; reflexivity. Qed.

Example get_weather_beijing :
  Server.invoke Sample.weather_api Sample.cfg (Server.GetWeather "Beijing" None)
  = Normal (Server.one_text (Json.dq "{
  'ok': true,
  'source': {
    'url': 'http://localhost:4021',
    'path': '/weather'
  },
  'request': {
    'tool': 'get-weather',
    'city': 'Beijing',
    'date': null
  },
  'upstream': {
    'status': 200,
    'payment_response_header': null,
    'x_payment_response_header': null,
    'data': {
      'temp': 21
    }
  }
}")).
Proof. vm_compute. reflexivity. Qed.

(** The [{ message }] literal of the [catch] branch prints, wherever it is
    allocated. *)
Lemma message_safe h result text :
  Server.data (Server.upstream result) = VRef (length h) →
  (∀ v, v ∈ (Server.request result).*2 → plain v = true) →
  ∃ out,
    Server.toRawOutput (h ++ [Obj [("message", VString text)]]) result
    = Normal (Some out)
    ∧ Json.stringify
        (Server.reify (h ++ [Obj [("message", VString text)]]) result).1
        (Server.reify (h ++ [Obj [("message", VString text)]]) result).2
      = Normal (Some out).
Proof.
  intros Hd Hreq. apply toRawOutput_safe, reify_safe; [exact Hreq|].
  rewrite Hd. apply safe_ref.
  - rewrite length_app. simpl. set_unfold. lia.
  - intros o Ho v Hv. unfold Server.reify in Ho. simpl in Ho.
    rewrite lookup_app_l in Ho by (rewrite length_app; simpl; lia).
    rewrite lookup_app_r, Nat.sub_diag in Ho by lia. simpl in Ho.
    injection Ho as <-. simpl in Hv.
    apply elem_of_cons in Hv as [->|Hv]; [by apply safe_plain|].
    by apply elem_of_nil in Hv.
Qed.

(** The [catch] branch, case by case. *)
Lemma rejected_envelope cfg c h error :
  let response :=
    match error with
    | Axios.AxiosError _ r => r
    | Axios.OtherError _ _ => None
    end in
  let carried :=
    match error with
    | Axios.AxiosError m _ => m
    | Axios.OtherError _ _ => Axios.to_string error
    end in
  let body := from_option Axios.data VUndefined response in
  let h' :=
    if nullish body then h ++ [Obj [("message", VString carried)]] else h in
  let envelope :=
    Envelope.make cfg c false
      {| Server.status := response ≫= Axios.status;
         Server.payment_response_header :=
           response ≫= λ r,
             Server.getHeaderValue h (Axios.headers r) "payment-response";
         Server.x_payment_response_header :=
           response ≫= λ r,
             Server.getHeaderValue h (Axios.headers r) "x-payment-response";
         Server.data := if nullish body then VRef (length h) else body |} in
  (∃ prefix, carried = prefix +:+ Axios.message error)
  ∧ ∃ text,
      Server.handler cfg (Envelope.request c) (h, Axios.Rejected error)
      = Normal (Server.one_text text)
      ∧ Server.toRawOutput h' envelope = Normal (Some text)
      ∧ (nullish body = true →
         Json.stringify (Server.reify h' envelope).1 (Server.reify h' envelope).2
         = Normal (Some text)).
Proof.
  intros response carried body h' envelope. split.
  { destruct error as [m r|n m]; simpl in *.
    - by exists EmptyString.
    - unfold carried, Axios.to_string. simpl.
      destruct (String.eqb n EmptyString); [by exists EmptyString|].
      destruct (String.eqb m EmptyString) eqn:Hm.
      + apply String.eqb_eq in Hm as ->. exists n.
        by rewrite string_app_empty_r.
      + exists (n +:+ ": "). apply string_app_assoc. }
  assert (Hup : Server.failure_upstream h error
                = (h', Server.upstream envelope)).
  { destruct error as [m [r|]|n m]; simpl; [|done|done].
    subst h' body. simpl. by destruct (nullish (Axios.data r)). }
  destruct (toRawOutput_text h' envelope) as [text Ht].
  exists text. split; [|split; [done|]].
  - apply handler_rejected. by rewrite Hup.
  - intros Hnull. subst h'. rewrite Hnull in *.
    destruct (message_safe h envelope carried) as (out & Hout & Hs).
    + subst envelope. simpl. by rewrite Hnull.
    + apply request_plain.
    + congruence.
Qed.

(** The timeout of the design document: no response, the message in
    [data]. *)
Example get_weather_timeout :
  Server.invoke Sample.timeout_api Sample.cfg
    (Server.GetWeather "Beijing" (Some "2026-02-13"))
  = Normal (Server.one_text (Json.dq "{
  'ok': false,
  'source': {
    'url': 'http://localhost:4021',
    'path': '/weather'
  },
  'request': {
    'tool': 'get-weather',
    'city': 'Beijing',
    'date': '2026-02-13'
  },
  'upstream': {
    'status': null,
    'payment_response_header': null,
    'x_payment_response_header': null,
    'data': {
      'message': 'timeout of 15000ms exceeded'
    }
  }
}")).
Proof. vm_compute. reflexivity. Qed.

(** ** [getHeaderValue] *)

Lemma get_first h b elems :
  h !! b = Some (Arr elems) →
  get h (VRef b) "0" = default VUndefined (head elems).
Proof. intros Hb. simpl. rewrite Hb. by destruct elems. Qed.

Lemma getHeaderValue_ref h a key :
  Server.getHeaderValue h (VRef a) key
  = let d := Server.direct h (VRef a) key in
    if isArray h d then
      match get h d "0" with VString s => Some s | _ => None end
    else
      match d with VString s => Some s | _ => None end.
Proof. reflexivity. Qed.

(** C9.  [getHeaderValue] is a total function with these cases: headers
    that are absent ([undefined], [null]), falsy or not of type object give
    [undefined]; on an object, a looked-up array gives its first element
    when that is a string and [undefined] otherwise, a looked-up string
    gives that string, and anything else (a number, a boolean, a BigInt, a
    function, an object that is not an array, nothing) gives [undefined]. *)
Theorem getHeaderValue_cases h headers key :
  (typeof headers ≠ TObject ∨ truthy headers = false →
   Server.getHeaderValue h headers key = None)
  ∧ (∀ a, headers = VRef a →
       let d := Server.direct h headers key in
       (∀ b elems, d = VRef b → h !! b = Some (Arr elems) →
          Server.getHeaderValue h headers key
          = match elems with VString s :: _ => Some s | _ => None end)
       ∧ (∀ s, d = VString s → Server.getHeaderValue h headers key = Some s)
       ∧ (isArray h d = false → (∀ s, d ≠ VString s) →
          Server.getHeaderValue h headers key = None)).
Proof.
  split.
  - intros [Hty|Hfalsy]; unfold Server.getHeaderValue.
    + by rewrite (bool_decide_eq_false_2 _ Hty), orb_true_r.
    + by rewrite Hfalsy.
  - intros a -> d. rewrite getHeaderValue_ref. fold d. cbv zeta.
    split; [|split].
    + intros b elems Hd Hb. rewrite Hd. simpl isArray. rewrite Hb.
      rewrite (get_first _ _ _ Hb). by destruct elems as [|[] ?].
    + by intros s ->.
    + intros -> Hns. destruct d; try done. by destruct (Hns s).
Qed.

Example getHeaderValue_samples :
  Server.getHeaderValue [] VUndefined "payment-response" = None
  ∧ Server.getHeaderValue [] (VString "payment-response: abc")
      "payment-response" = None
  ∧ Server.getHeaderValue
      [Obj [("payment-response", VRef 1)]; Arr [VString "abc"; VString "d"]]
      (VRef 0) "payment-response" = Some "abc"
  ∧ Server.getHeaderValue
      [Obj [("payment-response", VRef 1)]; Arr [VNumber (Int 7); VString "d"]]
      (VRef 0) "payment-response" = None
  ∧ Server.getHeaderValue [Obj [("payment-response", VNumber (Int 7))]]
      (VRef 0) "payment-response" = None.
Proof. repeat split; reflexivity. Qed.

Lemma getHeaderValue_cases_witness :
  Server.getHeaderValue [] VNull "payment-response" = None
  ∧ Server.getHeaderValue (Sample.receipt_heap "payment-response") (VRef 0)
      "payment-response" = Some "receipt"
  ∧ Server.getHeaderValue [Obj [("payment-response", VNumber (Int 7))]]
      (VRef 0) "payment-response" = None.
Proof.
  split; [|split].
  - apply (getHeaderValue_cases [] VNull "payment-response"). by right.
  - destruct (getHeaderValue_cases (Sample.receipt_heap "payment-response")
                (VRef 0) "payment-response") as [_ Hobject].
    destruct (Hobject 0 eq_refl) as (Harray & _ & _).
    exact (Harray 1 [VString "receipt"; VString "other"] eq_refl eq_refl).
  - destruct (getHeaderValue_cases
                [Obj [("payment-response", VNumber (Int 7))]]
                (VRef 0) "payment-response") as [_ Hobject].
    destruct (Hobject 0 eq_refl) as (_ & _ & Hother).
    apply Hother; [reflexivity|done].
Defined.

(** The three probes: a header kept under the key as given, under its
    lower-case form or under its upper-case form is found. *)
Lemma getHeaderValue_probes h a key name s :
  h !! a = Some (Obj [(name, VString s)]) →
  name = key ∨ name = toLowerCase key ∨ name = toUpperCase key →
  Server.getHeaderValue h (VRef a) key = Some s.
Proof.
  intros Ha Hname. rewrite getHeaderValue_ref.
  unfold Server.direct. simpl. rewrite Ha. simpl.
  assert (Hd : (if String.eqb name key then VString s else VUndefined)
               ?? (if String.eqb name (toLowerCase key)
                   then VString s else VUndefined)
               ?? (if String.eqb name (toUpperCase key)
                   then VString s else VUndefined) = VString s).
  { destruct Hname as [-> | [-> | ->]].
    - by rewrite String.eqb_refl.
    - rewrite String.eqb_refl. by destruct (String.eqb _ key).
    - rewrite String.eqb_refl.
      destruct (String.eqb _ key); [done|].
      by destruct (String.eqb _ (toLowerCase key)). }
  by rewrite Hd.
Qed.

(** A header kept under any other spelling is not. *)
Lemma getHeaderValue_other h a key name s :
  h !! a = Some (Obj [(name, VString s)]) →
  name ≠ key → name ≠ toLowerCase key → name ≠ toUpperCase key →
  Server.getHeaderValue h (VRef a) key = None.
Proof.
  intros Ha H1 H2 H3. rewrite getHeaderValue_ref.
  unfold Server.direct. simpl. rewrite Ha. simpl.
  apply String.eqb_neq in H1, H2, H3. by rewrite H1, H2, H3.
Qed.

(** Asked with the key in title case, the three probes are the three
    spellings, and each is found. *)
Example getHeaderValue_title_key :
  Server.getHeaderValue [Obj [("payment-response", VString "receipt")]]
    (VRef 0) "Payment-Response" = Some "receipt"
  ∧ Server.getHeaderValue [Obj [("PAYMENT-RESPONSE", VString "receipt")]]
      (VRef 0) "Payment-Response" = Some "receipt"
  ∧ Server.getHeaderValue [Obj [("Payment-Response", VString "receipt")]]
      (VRef 0) "Payment-Response" = Some "receipt".
Proof. repeat split; reflexivity. Qed.

(** C6.  The receipt is read with the key ["payment-response"].  A headers
    object that keeps the value under [payment-response] or under
    [PAYMENT-RESPONSE] yields it; one that keeps it under
    [Payment-Response] yields [undefined]: the lookup probes the key, its
    lower-case form and its upper-case form, and no other spelling. *)
Theorem getHeaderValue_mixed_case :
  Server.getHeaderValue [Obj [("payment-response", VString "receipt")]]
    (VRef 0) "payment-response" = Some "receipt"
  ∧ Server.getHeaderValue [Obj [("PAYMENT-RESPONSE", VString "receipt")]]
      (VRef 0) "payment-response" = Some "receipt"
  ∧ Server.getHeaderValue [Obj [("Payment-Response", VString "receipt")]]
      (VRef 0) "payment-response" = None.
Proof. repeat split; reflexivity. Qed.

(** ** Start-up *)

Section startup_facts.

Context (StringToNumber : string → number).
Context {Signer Bytes : Type}.
Context (privateKeyToAccount : string → option Signer).
Context (base58_decode : string → option Bytes).
Context (createKeyPairSignerFromBytes : Bytes → option Signer).

Abbreviation createPaidHttpClient :=
  (Server.createPaidHttpClient privateKeyToAccount base58_decode
     createKeyPairSignerFromBytes).
Abbreviation start :=
  (Server.start StringToNumber privateKeyToAccount base58_decode
     createKeyPairSignerFromBytes).

Ltac run_signers :=
  repeat match goal with
    | |- context [if negb ?b then _ else _] => destruct b; simpl
    | |- context [privateKeyToAccount ?k] =>
        destruct (privateKeyToAccount k); simpl
    | |- context [base58_decode ?k] => destruct (base58_decode k); simpl
    | |- context [createKeyPairSignerFromBytes ?k] =>
        destruct (createKeyPairSignerFromBytes k); simpl
    end.

(** A client that was built was created with the configured base URL and
    timeout; with a secret provided, it holds a scheme, and registering a
    scheme is the first event. *)
Lemma createPaidHttpClient_built cfg log api :
  createPaidHttpClient cfg = (log, Some api) →
  Server.api_baseURL api = Server.baseURL cfg
  ∧ Server.api_timeout api = Server.requestTimeoutMs cfg
  ∧ (Server.no_signer cfg = false →
     (∃ f signer, Server.api_client api !! f = Some signer)
     ∧ ∃ f rest, log = Server.RegisterScheme f :: rest).
Proof.
  unfold Server.createPaidHttpClient, Server.no_signer.
  destruct (Server.evmPrivateKey cfg) as [evm|];
    destruct (Server.svmPrivateKey cfg) as [svm|]; simpl;
    run_signers; try done; intros [= <- <-]; simpl;
    (split; [done|split; [done|]]); try done; intros _;
    unfold Server.registerExactSvmScheme, Server.registerExactEvmScheme;
    (split; [|by eauto]).
  all: first [ by exists Server.Svm; eexists; simplify_map_eq
             | by exists Server.Evm; eexists; simplify_map_eq ].
Qed.

Lemma main_built cfg log api :
  Server.main privateKeyToAccount base58_decode createKeyPairSignerFromBytes cfg
  = (log, Some api) →
  ∃ log', createPaidHttpClient cfg = (log', Some api)
          ∧ log = log' ++ [ Server.RegisterTool "get-weather";
                            Server.RegisterTool "get-data-from-resource-server";
                            Server.Connect ].
Proof.
  unfold Server.main.
  destruct (createPaidHttpClient cfg) as [log' [api'|]]; simpl; [|done].
  intros [= <- <-]. eauto.
Qed.

(** C3.  With neither secret provided (unset, or set to the empty string)
    the process does one thing: it exits with status 1; no scheme, no tool
    is registered and the transport is never connected.  Whenever start-up
    ends in the serving state, the client holds at least one signing
    scheme, and registering a scheme is the first thing the process did. *)
Theorem startup_requires_signer env :
  (Server.provided (env !! "EVM_PRIVATE_KEY") = false
   ∧ Server.provided (env !! "SVM_PRIVATE_KEY") = false →
   start env = ([Server.Exit 1], Server.Exited 1))
  ∧ (∀ log api,
       start env = (log, Server.Serving api) →
       (∃ f signer, Server.api_client api !! f = Some signer)
       ∧ ∃ f rest, log = Server.RegisterScheme f :: rest).
Proof.
  unfold Server.start. split.
  - unfold Server.no_signer. simpl. by intros [-> ->].
  - intros log api.
    destruct (Server.no_signer _) eqn:Hsigner; [done|].
    destruct (Server.main _ _ _ _) as [log' [api'|]] eqn:Hmain; [|done].
    intros [= <- <-].
    destruct (main_built _ _ _ Hmain) as (log0 & Hclient & ->).
    destruct (createPaidHttpClient_built _ _ _ Hclient) as (_ & _ & Hs).
    destruct (Hs Hsigner) as [Hscheme (f & rest & ->)].
    split; [done|]. by exists f, (rest ++ [ Server.RegisterTool "get-weather";
                            Server.RegisterTool "get-data-from-resource-server";
                            Server.Connect ]).
Qed.

(** C10.  With [RESOURCE_SERVER_URL], [ENDPOINT_PATH] and
    [REQUEST_TIMEOUT_MS] unset, the configuration takes the base URL
    [http://localhost:4021], the path [/weather] and the timeout 15000;
    nothing exits on their account: when a signer is provided and the
    client is built, the process ends up serving, the axios instance
    created with these defaults. *)
Theorem configuration_defaults env :
  env !! "RESOURCE_SERVER_URL" = None →
  env !! "ENDPOINT_PATH" = None →
  env !! "REQUEST_TIMEOUT_MS" = None →
  let cfg := Server.load StringToNumber env in
  Server.baseURL cfg = "http://localhost:4021"
  ∧ Server.endpointPath cfg = "/weather"
  ∧ Server.requestTimeoutMs cfg = Int 15000
  ∧ ∀ log api,
      Server.no_signer cfg = false →
      createPaidHttpClient cfg = (log, Some api) →
      (start env).2 = Server.Serving api
      ∧ Server.api_baseURL api = "http://localhost:4021"
      ∧ Server.api_timeout api = Int 15000.
Proof.
  intros Hurl Hpath Htimeout cfg.
  assert (Hcfg : Server.baseURL cfg = "http://localhost:4021"
                 ∧ Server.endpointPath cfg = "/weather"
                 ∧ Server.requestTimeoutMs cfg = Int 15000).
  { subst cfg. simpl. by rewrite Hurl, Hpath, Htimeout. }
  destruct Hcfg as (Hu & Hp & Ht). split; [done|]. split; [done|].
  split; [done|]. intros log api Hsigner Hclient.
  destruct (createPaidHttpClient_built _ _ _ Hclient) as (Hb & Hms & _).
  rewrite Hb, Hms, Hu, Ht. split; [|done].
  unfold Server.start, Server.main. fold cfg. by rewrite Hsigner, Hclient.
Qed.

End startup_facts.

(** ** The executor *)

Section executor_facts.

Context {Signer Terms Proof : Type}.
Context (registry : gmap Server.family Signer).
Context (challenge_of : heap → Axios.AxiosResponse
                         → Executor.Challenge (Terms := Terms)).
Context (sign : Signer → Executor.Challenge (Terms := Terms)
                → Axios.thrown + Proof).
Context (upstream : nat → Executor.Request (Proof := Proof) → Executor.wire).

Abbreviation step := (Executor.step registry challenge_of sign upstream).
Abbreviation steps := (Executor.steps registry challenge_of sign upstream).
Abbreviation execute := (Executor.execute registry challenge_of sign upstream).
Abbreviation api := (Executor.api registry challenge_of sign upstream).

(** Every run, spelt out: one call, or two with the second one the replay
    of the first. *)
Lemma execute_cases req :
  let final := (execute req).1 in
  let log := (execute req).2 in
  step final log = None
  ∧ (log = [req]
     ∨ ∃ p, log = [req; Executor.replay req p]
            ∧ final = Executor.second_outcome
                       (upstream 1 (Executor.replay req p))).
Proof.
  unfold Executor.execute. simpl.
  destruct (upstream 0 req) as [h r|m]; simpl; [|by eauto].
  destruct (Executor.payment_required r); simpl; [|by eauto].
  unfold Executor.negotiate.
  destruct (registry !! _) as [capability|]; simpl; [|by eauto].
  destruct (sign capability _) as [e|p]; simpl; [by eauto|].
  split; [|right; exists p; split; [done|]].
  - destruct (upstream 1 _) as [h' r'|m']; simpl; [|done].
    by destruct (Executor.payment_required r').
  - destruct (upstream 1 _) as [h' r'|m']; simpl; [|done].
    by destruct (Executor.payment_required r').
Qed.

(** A transition never takes the log past the budget of the state it
    reaches. *)
Lemma step_budget s log s' log' :
  length log ≤ Executor.budget s →
  step s log = Some (s', log') →
  length log' ≤ Executor.budget s'.
Proof.
  intros Hb Hstep.
  destruct s; simpl in *; try done; injection Hstep as <- <-;
    rewrite ?length_app; simpl;
    unfold Executor.first_outcome, Executor.second_outcome;
    repeat match goal with
      | |- context [match ?x with _ => _ end] => destruct x; simpl
      end; lia.
Qed.

Lemma steps_budget c c' :
  rtc steps c c' →
  length c.2 ≤ Executor.budget c.1 → length c'.2 ≤ Executor.budget c'.1.
Proof.
  induction 1 as [|[s log] [s' log'] c'' Hstep _ IH]; [done|].
  intros Hb. apply IH. by eapply step_budget.
Qed.

Lemma budget_two (s : Executor.state (Terms := Terms) (Proof := Proof)) :
  Executor.budget s ≤ 2.
Proof. destruct s; simpl; lia. Qed.

Lemma invoke_api cfg c :
  Server.invoke api cfg c
  = Server.handler cfg (Envelope.request c)
      (Executor.settle
         (execute {| Executor.path := Server.endpointPath cfg;
                     Executor.params := Envelope.query c;
                     Executor.payment := None |}).1).
Proof. by rewrite invoke_handler. Qed.

(** C1.  A tool invocation runs the executor once, on the tool's GET.  The
    run stops in a terminal state, from which no transition (hence no
    call) exists.  It has put on the network either the original request
    alone, or the original request and one replay of it; in the second
    case the caller gets the answer to the replay: a 402 again is surfaced
    as a failure carrying that response, a transport failure is surfaced
    as a failure, anything else is the result.  No configuration reachable
    from the initial one has more than two calls behind it. *)
Theorem at_most_one_retry cfg c :
  let req := {| Executor.path := Server.endpointPath cfg;
                Executor.params := Envelope.query c;
                Executor.payment := None |} in
  let final := (execute req).1 in
  let log := (execute req).2 in
  Server.invoke api cfg c
  = Server.handler cfg (Envelope.request c) (Executor.settle final)
  ∧ step final log = None
  ∧ (log = [req]
     ∨ ∃ p,
         let retry := Executor.replay req p in
         log = [req; retry]
         ∧ final = Executor.second_outcome (upstream 1 retry)
         ∧ (∀ h r, upstream 1 retry = Executor.Response h r →
                   Executor.payment_required r = true →
                   final = Executor.Failed h (Executor.surfaced r))
         ∧ (∀ m, upstream 1 retry = Executor.TransportError m →
                 final = Executor.Failed [] (Executor.transport m)))
  ∧ ∀ s' log',
      rtc steps (Executor.Sending req, []) (s', log') → length log' ≤ 2.
Proof.
  intros req final log. split; [apply invoke_api|].
  destruct (execute_cases req) as [Hterminal Hlog].
  split; [done|]. subst final log. split.
  - destruct Hlog as [Hone|(p & Htwo & Hfinal)]; [by left|right].
    exists p. cbv zeta. split; [done|]. split; [done|]. split.
    + intros h r Hw Hpay. rewrite Hfinal, Hw. simpl. by rewrite Hpay.
    + intros m Hw. by rewrite Hfinal, Hw.
  - intros s' log' Hrtc.
    pose proof (steps_budget _ _ Hrtc) as Hb. simpl in Hb.
    specialize (Hb (Nat.le_refl 0)). pose proof (budget_two s'). lia.
Qed.

End executor_facts.

(** ** The properties at the sample inputs *)

Lemma configuration_defaults_witness :
  Server.baseURL Sample.cfg = "http://localhost:4021"
  ∧ Server.endpointPath Sample.cfg = "/weather"
  ∧ Server.requestTimeoutMs Sample.cfg = Int 15000.
Proof.
  destruct (configuration_defaults (λ _, NaN) (λ _ : string, Some tt)
              (λ _ : string, Some tt) (λ _ : unit, Some tt) Sample.env
              eq_refl eq_refl eq_refl) as (Hurl & Hpath & Htimeout & _).
  repeat split; assumption.
Defined.

Example start_without_secrets :
  Sample.start ∅ = ([Server.Exit 1], Server.Exited 1)
  ∧ Sample.start {["EVM_PRIVATE_KEY" := EmptyString]}
    = ([Server.Exit 1], Server.Exited 1).
Proof. split; reflexivity. Qed.

Lemma startup_requires_signer_witness :
  Sample.start ∅ = ([Server.Exit 1], Server.Exited 1)
  ∧ ∃ f rest, (Sample.start Sample.env).1 = Server.RegisterScheme f :: rest.
Proof.
  split.
  - apply (startup_requires_signer (λ _, NaN) (λ _ : string, Some tt)
             (λ _ : string, Some tt) (λ _ : unit, Some tt) ∅).
    split; reflexivity.
  - eapply (startup_requires_signer (λ _, NaN) (λ _ : string, Some tt)
              (λ _ : string, Some tt) (λ _ : unit, Some tt) Sample.env).
    reflexivity.
Defined.

(** A malformed SVM secret stops the process after the EVM scheme was
    registered, and before any tool is. *)
Example start_with_malformed_secret :
  Sample.start_strict
    {["EVM_PRIVATE_KEY" := "0xabc"; "SVM_PRIVATE_KEY" := "not base58"]}
  = ([Server.RegisterScheme Server.Evm; Server.Exit 1], Server.Exited 1).
Proof. reflexivity. Qed.

Example start_with_evm_secret :
  (Sample.start Sample.env).1
  = [ Server.RegisterScheme Server.Evm;
      Server.RegisterTool "get-weather";
      Server.RegisterTool "get-data-from-resource-server";
      Server.Connect ].
Proof. reflexivity. Qed.

(** A paying run: the challenge names the registered family, the replay
    carries the proof and is answered with the weather. *)
Example execute_paid :
  let req := {| Executor.path := "/weather"; Executor.params := [];
                Executor.payment := None |} in
  Executor.execute Sample.registry Sample.challenge_of Sample.sign
    (Sample.paid "evm") req
  = (Executor.Succeeded Sample.weather_heap Sample.weather_response,
     [req; Executor.replay req tt]).
Proof. reflexivity. Qed.

(** An upstream that cannot be satisfied: two calls, and the second 402 is
    what the caller gets. *)
Example execute_insatiable :
  let req := {| Executor.path := "/weather"; Executor.params := [];
                Executor.payment := None |} in
  Executor.execute Sample.registry Sample.challenge_of Sample.sign
    (Sample.insatiable "evm") req
  = (Executor.Failed (Sample.challenge_heap "evm")
       (Executor.surfaced Sample.challenge_response),
     [req; Executor.replay req tt]).
Proof. reflexivity. Qed.

(** A challenge that names a family without a capability, as the host
    sees it. *)
Example get_data_unsupported_scheme :
  Server.invoke (Sample.api (Sample.insatiable "svm")) Sample.cfg
    Server.GetDataFromResourceServer
  = Normal (Server.one_text (Json.dq "{
  'ok': false,
  'source': {
    'url': 'http://localhost:4021',
    'path': '/weather'
  },
  'request': {
    'tool': 'get-data-from-resource-server'
  },
  'upstream': {
    'status': 402,
    'payment_response_header': null,
    'x_payment_response_header': null,
    'data': {
      'family': 'svm',
      'amount': 1000
    }
  }
}")).
Proof. vm_compute. reflexivity. Qed.

(** * Further properties of the server code *)

(** ** [getHeaderValue]: the order of the probes *)

Lemma getHeaderValue_obj h a o key :
  h !! a = Some o →
  Server.getHeaderValue h (VRef a) key
  = let d := get_own o key ?? get_own o (toLowerCase key)
               ?? get_own o (toUpperCase key) in
    if isArray h d then
      match get h d "0" with VString s => Some s | _ => None end
    else
      match d with VString s => Some s | _ => None end.
Proof.
  intros Ha. rewrite getHeaderValue_ref. unfold Server.direct. simpl.
  by rewrite Ha.
Qed.

(** X1.  What sits under the key as given decides alone, unless it is
    [undefined] or [null]: a string there is the result whatever the other
    spellings hold, and a value there that is neither a string nor an array
    (a number, [false], an object) makes the result [undefined] even when
    another spelling holds a string. *)
Theorem getHeaderValue_exact_decides h a o key v :
  h !! a = Some o →
  get_own o key = v →
  nullish v = false →
  isArray h v = false →
  Server.getHeaderValue h (VRef a) key
  = match v with VString s => Some s | _ => None end.
Proof.
  intros Ha Hv Hnull Harr. rewrite (getHeaderValue_obj _ _ _ _ Ha), Hv.
  unfold coalesce. rewrite Hnull. simpl. rewrite Hnull. simpl.
  by rewrite Harr.
Qed.

Lemma getHeaderValue_exact_decides_witness :
  Server.getHeaderValue
    [Obj [("Payment-Response", VNumber (Int 0));
          ("payment-response", VString "receipt")]]
    (VRef 0) "Payment-Response" = None.
Proof.
  exact (getHeaderValue_exact_decides
           [Obj [("Payment-Response", VNumber (Int 0));
                 ("payment-response", VString "receipt")]]
           0 _ "Payment-Response" (VNumber (Int 0))
           eq_refl eq_refl eq_refl eq_refl).
Defined.

(** ** [getHeaderValue] on lower-case header names *)

Lemma lower_upper_ascii c : lower_ascii (upper_ascii c) = lower_ascii c.
Proof. by destruct c as [[] [] [] [] [] [] [] []]. Qed.

Lemma toLowerCase_toUpperCase s : toLowerCase (toUpperCase s) = toLowerCase s.
Proof.
  unfold toLowerCase, toUpperCase.
  induction s as [|c s IH]; simpl; [done|]. by rewrite lower_upper_ascii, IH.
Qed.

(** Among lower-case names, a key that is not lower-case finds nothing. *)
Lemma assoc_lower_named props k :
  Node.lower_named (Obj props) = true →
  toLowerCase k ≠ k → assoc k props = VUndefined.
Proof.
  intros Hlow Hk. induction props as [|[name v] props IH]; [done|].
  simpl in Hlow. apply andb_true_iff in Hlow as [Hname Hlow]. simpl.
  destruct (String.eqb name k) eqn:Heq; [|by apply IH].
  apply String.eqb_eq in Heq, Hname. congruence.
Qed.

(** With lower-case names, the three probes come down to the one under the
    lower-case key. *)
Lemma getHeaderValue_lower_named h a props key :
  h !! a = Some (Obj props) →
  Node.lower_named (Obj props) = true →
  Server.getHeaderValue h (VRef a) key
  = let v := assoc (toLowerCase key) props in
    if isArray h v then
      match get h v "0" with VString s => Some s | _ => None end
    else
      match v with VString s => Some s | _ => None end.
Proof.
  intros Ha Hlow. rewrite (getHeaderValue_obj _ _ _ _ Ha). simpl.
  set (r := assoc (toLowerCase key) props).
  assert (H1 : assoc key props = r ∨ assoc key props = VUndefined).
  { destruct (decide (toLowerCase key = key)) as [Heq|Hne].
    - left. subst r. by rewrite Heq.
    - right. by apply assoc_lower_named. }
  assert (H3 : assoc (toUpperCase key) props = r
               ∨ assoc (toUpperCase key) props = VUndefined).
  { destruct (decide (toLowerCase (toUpperCase key) = toUpperCase key))
      as [Heq|Hne].
    - left. subst r. by rewrite <- Heq, toLowerCase_toUpperCase.
    - right. by apply assoc_lower_named. }
  destruct (nullish r) eqn:Hnull.
  - assert (Hd : nullish (assoc key props ?? r ?? assoc (toUpperCase key) props)
                 = true).
    { unfold coalesce.
      destruct H1 as [-> | ->], H3 as [-> | ->]; simpl; rewrite ?Hnull;
        simpl; by rewrite ?Hnull. }
    destruct (assoc key props ?? r ?? assoc (toUpperCase key) props);
      try done; by destruct r.
  - assert (Hd : assoc key props ?? r ?? assoc (toUpperCase key) props = r).
    { unfold coalesce.
      destruct H1 as [-> | ->]; simpl; rewrite ?Hnull; simpl;
        by rewrite ?Hnull. }
    by rewrite Hd.
Qed.

(** X2.  On a headers object whose names are all lower-case, the spelling
    of a header name given as key does not matter: two keys that differ in
    case only give the same result.  The keys are header names with a
    hyphen, which no object inherits a member under. *)
Theorem getHeaderValue_key_case h a props key key' :
  h !! a = Some (Obj props) →
  Node.lower_named (Obj props) = true →
  Header.dashed key = true →
  toLowerCase key = toLowerCase key' →
  Server.getHeaderValue h (VRef a) key = Server.getHeaderValue h (VRef a) key'.
Proof.
  intros Ha Hlow _ Hkey.
  rewrite !(getHeaderValue_lower_named _ _ _ _ Ha Hlow). by rewrite Hkey.
Qed.

Lemma getHeaderValue_key_case_witness :
  Server.getHeaderValue (Sample.receipt_heap "payment-response") (VRef 0)
    "Payment-Response"
  = Server.getHeaderValue (Sample.receipt_heap "payment-response") (VRef 0)
      "PAYMENT-response".
Proof.
  exact (getHeaderValue_key_case (Sample.receipt_heap "payment-response") 0 _
           "Payment-Response" "PAYMENT-response"
           eq_refl eq_refl eq_refl eq_refl).
Defined.

(** ** [safeJsonStringify]: when the result is a string *)

(** X3.  [safeJsonStringify] does not always return a string.  On
    [undefined] and on a function [JSON.stringify] returns [undefined]
    without raising, so the [catch] clause is not entered and [undefined]
    is what comes back.  On a BigInt the fallback text comes back.  On
    [null], a boolean, a number and a string, a string comes back: the
    JSON text of the value. *)
Theorem safeJsonStringify_string h :
  Server.safeJsonStringify h VUndefined = Normal None
  ∧ Server.safeJsonStringify h VFunction = Normal None
  ∧ (∀ z, Server.safeJsonStringify h (VBigInt z)
          = Normal (Some Server.fallback_text))
  ∧ Server.safeJsonStringify h VNull = Normal (Some "null")
  ∧ (∀ b, Server.safeJsonStringify h (VBool b)
          = Normal (Some (if b then "true" else "false")))
  ∧ (∀ n, ∃ text,
        Server.safeJsonStringify h (VNumber n) = Normal (Some text))
  ∧ (∀ s, Server.safeJsonStringify h (VString s)
          = Normal (Some (Json.quote s))).
Proof.
  repeat split; try done.
  - intros z. unfold Server.safeJsonStringify. simpl. apply stringify_fallback.
  - by intros [].
  - intros [z|]; by eexists.
Qed.

(** ** A body that does not serialize *)

Section body_throws.

Import Json.

Lemma members_throw {E} (go : value → completion E (option string)) props e :
  members go props = Throw e → ∃ v e', v ∈ props.*2 ∧ go v = Throw e'.
Proof.
  induction props as [|[k v] ps IH]; simpl; [done|].
  destruct (go v) as [strP|e'|] eqn:Hv; simpl; [|intros _|done].
  - destruct (members go ps) as [rest| |] eqn:Hps; simpl; [done| |done].
    intros [= ->]. destruct (IH eq_refl) as (v' & e' & Hin & Hthrow).
    exists v', e'. split; [by right|done].
  - exists v, e'. split; [by left|done].
Qed.

Lemma elements_throw {E} (go : value → completion E (option string)) elems e :
  elements go elems = Throw e → ∃ v e', v ∈ elems ∧ go v = Throw e'.
Proof.
  induction elems as [|v vs IH]; simpl; [done|].
  destruct (go v) as [strP|e'|] eqn:Hv; simpl; [|intros _|done].
  - destruct (elements go vs) as [rest| |] eqn:Hvs; simpl; [done| |done].
    intros [= ->]. destruct (IH eq_refl) as (v' & e' & Hin & Hthrow).
    exists v', e'. split; [by right|done].
  - exists v, e'. split; [by left|done].
Qed.

(** What a serialized object says about its fields. *)
Lemma serialize_ref_normal fuel h stack indent a r o v :
  serialize fuel h stack indent (VRef a) = Normal r →
  h !! a = Some o → v ∈ fields o →
  ∃ fuel' r',
    serialize fuel' h (a :: stack) (indent +:+ gap) v = Normal r'.
Proof.
  destruct fuel as [|fuel]; simpl; [by case_bool_decide|].
  case_bool_decide; [done|]. intros Hs Ho Hv. rewrite Ho in Hs.
  destruct o as [props|elems]; simpl in Hv.
  - destruct (members _ props) as [p| |] eqn:Hm; simpl in Hs; [|done|done].
    destruct (members_normal _ _ _ Hm v Hv) as [r' Hr']. eauto.
  - destruct (elements _ elems) as [p| |] eqn:Hm; simpl in Hs; [|done|done].
    destruct (elements_normal _ _ _ Hm v Hv) as [r' Hr']. eauto.
Qed.

(** A value on which the serializer raises still fails to serialize once
    the heap has grown at its end and the stack has grown. *)
Lemma serialize_throw_extend h ext :
  ∀ fuel stack indent v e fuel' stack' indent' r,
    serialize fuel h stack indent v = Throw e →
    (∀ x, x ∈ stack → x ∈ stack') →
    serialize fuel' (h ++ ext) stack' indent' v ≠ Normal r.
Proof.
  induction fuel as [|fuel IH];
    intros stack indent v e fuel' stack' indent' r Hs Hst.
  - destruct v as [| |[]|[]| | | |a]; simpl in Hs; try done.
    + by destruct fuel'.
    + case_bool_decide as Hin; [|done].
      destruct fuel'; simpl; by rewrite bool_decide_eq_true_2 by auto.
  - destruct v as [| |[]|[]| | | |a]; simpl in Hs; try done.
    + by destruct fuel'.
    + case_bool_decide as Hin.
      { destruct fuel'; simpl; by rewrite bool_decide_eq_true_2 by auto. }
      destruct (h !! a) as [o|] eqn:Ho; [|done].
      assert (Hfield : ∃ v' e', v' ∈ fields o
                ∧ serialize fuel h (a :: stack) (indent +:+ gap) v' = Throw e').
      { destruct o as [props|elems].
        - destruct (members _ props) as [p|e0|] eqn:Hm; simpl in Hs;
            [done| |done].
          by destruct (members_throw _ _ _ Hm) as (v' & e' & ? & ?); eauto.
        - destruct (elements _ elems) as [p|e0|] eqn:Hm; simpl in Hs;
            [done| |done].
          by destruct (elements_throw _ _ _ Hm) as (v' & e' & ? & ?); eauto. }
      destruct Hfield as (v' & e' & Hv' & Hthrow). intros Hr.
      assert (Ho' : (h ++ ext) !! a = Some o).
      { rewrite lookup_app_l; [done|by eapply lookup_lt_Some]. }
      destruct (serialize_ref_normal _ _ _ _ _ _ _ _ Hr Ho' Hv')
        as (fuel2 & r2 & Hr2).
      eapply (IH _ _ _ _ fuel2 (a :: stack')); [exact Hthrow| |exact Hr2].
      intros x [->|Hx]%elem_of_cons; [by left|right; auto].
Qed.

(** The envelope of a body that raises raises. *)
Lemma reify_throws h result e :
  stringify h (Server.data (Server.upstream result)) = Throw e →
  ∃ e', stringify (Server.reify h result).1 (Server.reify h result).2
        = Throw e'.
Proof.
  intros Hbody.
  destruct (stringify _ (Server.reify h result).2) as [r|e'|] eqn:Hs;
    [|by eauto|by destruct (stringify_fuel _ _ Hs)].
  exfalso. unfold stringify in Hs.
  change (Server.reify h result).2 with (VRef (length h)) in Hs.
  pose proof (reify_lookup h result 0) as H0. rewrite Nat.add_0_r in H0.
  destruct (serialize_ref_normal _ _ _ _ _ _ _ (VRef (length h + 3)) Hs H0)
    as (fuel1 & r1 & Hs1).
  { simpl. set_unfold. auto. }
  destruct (serialize_ref_normal _ _ _ _ _ _ _
              (Server.data (Server.upstream result)) Hs1
              (reify_lookup h result 3)) as (fuel2 & r2 & Hs2).
  { simpl. set_unfold. auto 10. }
  eapply (serialize_throw_extend h); [exact Hbody| |exact Hs2].
  intros x Hx. by apply elem_of_nil in Hx.
Qed.

Lemma toRawOutput_throws h result e :
  stringify (Server.reify h result).1 (Server.reify h result).2 = Throw e →
  Server.toRawOutput h result = Normal (Some Server.fallback_text).
Proof.
  intros Hs. unfold Server.toRawOutput, Server.safeJsonStringify.
  change (Server.reify h result)
    with ((Server.reify h result).1, (Server.reify h result).2) at 1.
  cbv iota beta. rewrite Hs. simpl. apply stringify_fallback.
Qed.

End body_throws.

(** X4.  When the body of what came back does not serialize (it holds a
    reference cycle or a BigInt), the tool returns the fallback text and
    nothing else: the success flag, the status, the request and the
    receipt headers are all lost.  This holds for a response that resolved
    and for the response an axios error carries. *)
Theorem unserializable_body (api : Server.Api) cfg c h outcome response e :
  api (Server.endpointPath cfg) (Envelope.query c) = (h, outcome) →
  outcome = Axios.Fulfilled response
  ∨ (∃ m, outcome = Axios.Rejected (Axios.AxiosError m (Some response))) →
  Json.stringify h (Axios.data response) = Throw e →
  Server.invoke api cfg c = Normal (Server.one_text Server.fallback_text).
Proof.
  intros Hcall Houtcome Hbody. rewrite invoke_handler, Hcall.
  destruct Houtcome as [-> | [m ->]].
  - apply handler_fulfilled.
    destruct (reify_throws h
                {| Server.ok := true;
                   Server.source := {| Server.url := Server.baseURL cfg;
                                       Server.path := Server.endpointPath cfg |};
                   Server.request := Envelope.request c;
                   Server.upstream := Server.success_upstream h response |}
                e Hbody) as [e' He'].
    by eapply toRawOutput_throws.
  - apply handler_rejected.
    assert (Hnull : nullish (Axios.data response) = false).
    { destruct (Axios.data response); try done;
        unfold Json.stringify in Hbody; simpl in Hbody; done. }
    simpl. rewrite Hnull. simpl.
    destruct (reify_throws h
                {| Server.ok := false;
                   Server.source := {| Server.url := Server.baseURL cfg;
                                       Server.path := Server.endpointPath cfg |};
                   Server.request := Envelope.request c;
                   Server.upstream :=
                     {| Server.status := Axios.status response;
                        Server.payment_response_header :=
                          Server.getHeaderValue h (Axios.headers response)
                            "payment-response";
                        Server.x_payment_response_header :=
                          Server.getHeaderValue h (Axios.headers response)
                            "x-payment-response";
                        Server.data := Axios.data response |} |}
                e Hbody) as [e' He'].
    by eapply toRawOutput_throws.
Qed.

Lemma unserializable_body_witness :
  Server.invoke Corner.cyclic_api Sample.cfg (Server.GetWeather "Beijing" None)
  = Normal (Server.one_text Server.fallback_text).
Proof.
  exact (unserializable_body Corner.cyclic_api Sample.cfg
           (Server.GetWeather "Beijing" None) Corner.cyclic_heap _
           Corner.cyclic_response Json.circular
           eq_refl (or_introl eq_refl) eq_refl).
Defined.

(** ** The text of an envelope *)

Section envelope_prefix.

Import Json.

(** The text of a serialized envelope opens with the [ok] member. *)
Lemma envelope_text_opening h result text :
  stringify (Server.reify h result).1 (Server.reify h result).2
  = Normal (Some text) →
  ∃ tail,
    text = dq "{
  'ok': " +:+ (if Server.ok result then "true" else "false") +:+ "," +:+ tail.
Proof.
  unfold stringify.
  change (Server.reify h result).2 with (VRef (length h)).
  cbn [serialize]. rewrite bool_decide_eq_false_2 by apply not_elem_of_nil.
  pose proof (reify_lookup h result 0) as H0. rewrite Nat.add_0_r in H0.
  rewrite H0. cbn [lookup list_lookup members].
  set (go := serialize _ _ _ _).
  assert (Hok : go (VBool (Server.ok result))
                = Normal (Some (if Server.ok result then "true" else "false"))).
  { subst go. by destruct (Server.ok result); simpl;
      match goal with |- serialize ?n _ _ _ _ = _ => destruct n end. }
  rewrite Hok. cbn [cbind].
  destruct (go (VRef (length h + 1))) as [s1| |] eqn:H1; cbn [cbind];
    [|done|done].
  destruct (serialize_ref_some _ _ _ _ _ _ H1) as [str1 ->].
  destruct (go (VRef (length h + 2))) as [s2| |]; cbn [cbind]; [|done|done].
  destruct (go (VRef (length h + 3))) as [s3| |]; cbn [cbind]; [|done|done].
  intros [= <-]. destruct (Server.ok result); eexists; reflexivity.
Qed.

End envelope_prefix.

(** [toRawOutput] returns either what [JSON.stringify] made of the
    envelope, or the fallback text after [JSON.stringify] raised. *)
Lemma toRawOutput_cases h result text :
  Server.toRawOutput h result = Normal (Some text) →
  Json.stringify (Server.reify h result).1 (Server.reify h result).2
  = Normal (Some text)
  ∨ (text = Server.fallback_text
     ∧ ∃ e, Json.stringify (Server.reify h result).1 (Server.reify h result).2
            = Throw e).
Proof.
  unfold Server.toRawOutput, Server.safeJsonStringify.
  change (Server.reify h result)
    with ((Server.reify h result).1, (Server.reify h result).2) at 1.
  cbv iota beta.
  destruct (Json.stringify _ _) as [r|e|] eqn:Hs; [by left| |done].
  simpl. rewrite stringify_fallback. intros [= <-]. right. eauto.
Qed.

Lemma opening_not_fallback (ok : bool) tail :
  Server.fallback_text
  ≠ Json.dq "{
  'ok': " +:+ (if ok then "true" else "false") +:+ "," +:+ tail.
Proof. destruct ok; intros H; cbv in H; discriminate H. Qed.

(** X5.  The fallback text is returned only after [JSON.stringify] raised
    on the envelope, and always then: a caller that reads the fallback text
    knows the envelope did not serialize, and no envelope that serializes
    prints as the fallback text. *)
Theorem fallback_only_on_failure h result :
  Server.toRawOutput h result = Normal (Some Server.fallback_text)
  ↔ ∃ e, Json.stringify (Server.reify h result).1 (Server.reify h result).2
         = Throw e.
Proof.
  split.
  - intros Ht. destruct (toRawOutput_cases _ _ _ Ht) as [Hs|[_ Hs]]; [|done].
    destruct (envelope_text_opening _ _ _ Hs) as [tail Htail].
    by destruct (opening_not_fallback _ _ Htail).
  - intros [e He]. by eapply toRawOutput_throws.
Qed.

(** X6.  Unless it is the fallback text, the text a tool returns opens with
    the [ok] member, [true] when [api.get] resolved and [false] when it
    rejected: the first line after the brace tells the two apart. *)
Theorem ok_member_first (api : Server.Api) cfg c h outcome text :
  api (Server.endpointPath cfg) (Envelope.query c) = (h, outcome) →
  Server.invoke api cfg c = Normal (Server.one_text text) →
  text ≠ Server.fallback_text →
  ∃ tail,
    text = Json.dq "{
  'ok': " +:+ match outcome with
              | Axios.Fulfilled _ => "true"
              | Axios.Rejected _ => "false"
              end +:+ "," +:+ tail.
Proof.
  intros Hcall Hinvoke Hnot. rewrite invoke_handler, Hcall in Hinvoke.
  destruct outcome as [response|error].
  - destruct (toRawOutput_text h
                {| Server.ok := true;
                   Server.source := {| Server.url := Server.baseURL cfg;
                                       Server.path := Server.endpointPath cfg |};
                   Server.request := Envelope.request c;
                   Server.upstream := Server.success_upstream h response |})
      as [text' Ht].
    rewrite (handler_fulfilled _ _ _ _ _ Ht) in Hinvoke.
    injection Hinvoke as <-.
    destruct (toRawOutput_cases _ _ _ Ht) as [Hs|[Hf _]]; [|done].
    apply (envelope_text_opening _ _ _ Hs).
  - destruct (toRawOutput_text (Server.failure_upstream h error).1
                {| Server.ok := false;
                   Server.source := {| Server.url := Server.baseURL cfg;
                                       Server.path := Server.endpointPath cfg |};
                   Server.request := Envelope.request c;
                   Server.upstream := (Server.failure_upstream h error).2 |})
      as [text' Ht].
    rewrite (handler_rejected _ _ _ _ _ Ht) in Hinvoke.
    injection Hinvoke as <-.
    destruct (toRawOutput_cases _ _ _ Ht) as [Hs|[Hf _]]; [|done].
    apply (envelope_text_opening _ _ _ Hs).
Qed.

Lemma tool_text (api : Server.Api) cfg c :
  ∃ text, Server.invoke api cfg c = Normal (Server.one_text text).
Proof.
  rewrite invoke_handler.
  destruct (handler_returns cfg (Envelope.request c)
              (api (Server.endpointPath cfg) (Envelope.query c)))
    as (h & result & text & _ & _ & Ht).
  eauto.
Qed.

Lemma ok_member_first_witness :
  ∃ text tail,
    Server.invoke Sample.timeout_api Sample.cfg Server.GetDataFromResourceServer
    = Normal (Server.one_text text)
    ∧ text = Json.dq "{
  'ok': false," +:+ tail.
Proof.
  destruct (tool_text Sample.timeout_api Sample.cfg
              Server.GetDataFromResourceServer) as [text Ht].
  destruct (ok_member_first Sample.timeout_api Sample.cfg
              Server.GetDataFromResourceServer [] _ text eq_refl Ht)
    as [tail Htail].
  - injection Ht as <-. intros H. vm_compute in H. discriminate H.
  - exists text, tail. split; [exact Ht|exact Htail].
Defined.

(** ** Start-up, case by case *)

Section startup_cases.

Context (StringToNumber : string → number).
Context {Signer Bytes : Type}.
Context (privateKeyToAccount : string → option Signer).
Context (base58_decode : string → option Bytes).
Context (createKeyPairSignerFromBytes : Bytes → option Signer).

Abbreviation start' :=
  (Server.start StringToNumber privateKeyToAccount base58_decode
     createKeyPairSignerFromBytes).

(** The signer each secret yields: [None] when the library raises. *)
Abbreviation evm_signer cfg :=
  (Server.evmPrivateKey cfg ≫= privateKeyToAccount).
Abbreviation svm_signer cfg :=
  ((Server.svmPrivateKey cfg ≫= base58_decode)
     ≫= createKeyPairSignerFromBytes).

Ltac start_cases env :=
  unfold Server.start, Server.main, Server.createPaidHttpClient,
    Server.no_signer, Server.registerExactEvmScheme,
    Server.registerExactSvmScheme;
  simpl;
  destruct (env !! "EVM_PRIVATE_KEY") as [evm|];
  destruct (env !! "SVM_PRIVATE_KEY") as [svm|]; simpl;
  repeat match goal with
    | |- context [String.eqb ?k EmptyString] =>
        destruct (String.eqb k EmptyString); simpl
    | |- context [privateKeyToAccount ?k] =>
        destruct (privateKeyToAccount k); simpl
    | |- context [base58_decode ?k] => destruct (base58_decode k); simpl
    | |- context [createKeyPairSignerFromBytes ?k] =>
        destruct (createKeyPairSignerFromBytes k); simpl
    end.

Ltac sublist_of :=
  solve [ repeat first [ apply sublist_nil
                       | apply sublist_skip
                       | apply sublist_cons ] ].

Ltac shape schemes :=
  exists schemes; split;
  [ sublist_of
  | first [ left; reflexivity
          | right; split; [done | eexists; reflexivity] ] ].

(** X7.  When start-up ends serving, the client holds, for each family,
    exactly the signer made from that family's secret, and none for a
    secret that is unset or empty; the base URL and the timeout of the
    axios instance are the configured ones. *)
Theorem serving_registry env api log :
  start' env = (log, Server.Serving api) →
  let cfg := Server.load StringToNumber env in
  Server.api_client api !! Server.Evm
  = (if Server.provided (Server.evmPrivateKey cfg)
     then evm_signer cfg else None)
  ∧ Server.api_client api !! Server.Svm
    = (if Server.provided (Server.svmPrivateKey cfg)
       then svm_signer cfg else None)
  ∧ Server.api_baseURL api = Server.baseURL cfg
  ∧ Server.api_timeout api = Server.requestTimeoutMs cfg.
Proof.
  start_cases env; try done; intros [= <- <-]; simpl;
    repeat split; by simplify_map_eq.
Qed.

(** X8.  Start-up ends with exit status 1 exactly in these cases: neither
    secret is provided, or a secret that is provided does not make a
    signer.  One malformed secret stops the process even when the other
    one is good. *)
Theorem start_exits_iff env :
  let cfg := Server.load StringToNumber env in
  (start' env).2 = Server.Exited 1
  ↔ Server.no_signer cfg = true
    ∨ (Server.provided (Server.evmPrivateKey cfg) = true
       ∧ evm_signer cfg = None)
    ∨ (Server.provided (Server.svmPrivateKey cfg) = true
       ∧ svm_signer cfg = None).
Proof.
  start_cases env; split; try done; try (by auto); try (by intuition);
    try (by intros [?|[[? ?]|[? ?]]]).
Qed.

(** X9.  The events of a start-up are, in this order: the schemes
    registered (EVM before SVM, each at most once), then either the exit,
    or the two tools and the connection of the transport, and this only
    with a scheme registered.  So no tool is registered before every
    signer is built, the transport is connected last, and nothing follows
    an exit. *)
Theorem start_log_shape env :
  ∃ schemes,
    sublist schemes
      [Server.RegisterScheme Server.Evm; Server.RegisterScheme Server.Svm]
    ∧ (start' env = (schemes ++ [Server.Exit 1], Server.Exited 1)
       ∨ (schemes ≠ []
          ∧ ∃ api,
              start' env
              = (schemes ++ [ Server.RegisterTool "get-weather";
                              Server.RegisterTool
                                "get-data-from-resource-server";
                              Server.Connect ],
                 Server.Serving api))).
Proof.
  start_cases env;
    first [ shape (@nil Server.event)
          | shape [Server.RegisterScheme Server.Evm]
          | shape [Server.RegisterScheme Server.Svm]
          | shape [Server.RegisterScheme Server.Evm;
                   Server.RegisterScheme Server.Svm] ].
Qed.

(** X10.  Start-up reads the two secrets and nothing else to decide what
    it does: two environments with the same secrets give the same events
    and exit alike, whatever the URL, the path and the timeout are (a
    timeout that is not a number included). *)
Theorem start_reads_secrets env env' :
  env !! "EVM_PRIVATE_KEY" = env' !! "EVM_PRIVATE_KEY" →
  env !! "SVM_PRIVATE_KEY" = env' !! "SVM_PRIVATE_KEY" →
  (start' env).1 = (start' env').1
  ∧ ((start' env).2 = Server.Exited 1 ↔ (start' env').2 = Server.Exited 1).
Proof.
  intros Hevm Hsvm.
  unfold Server.start, Server.main, Server.createPaidHttpClient,
    Server.no_signer. simpl. rewrite <- Hevm, <- Hsvm.
  start_cases env; by split.
Qed.

End startup_cases.

Lemma serving_registry_witness :
  ∃ api,
    (Sample.start Sample.env).2 = Server.Serving api
    ∧ Server.api_client api !! Server.Evm = Some tt
    ∧ Server.api_client api !! Server.Svm = None.
Proof.
  eexists. split; [reflexivity|].
  destruct (serving_registry (λ _, NaN) (λ _ : string, Some tt)
              (λ _ : string, Some tt) (λ _ : unit, Some tt)
              Sample.env _ _ eq_refl) as (Hevm & Hsvm & _).
  split; [exact Hevm|exact Hsvm].
Defined.

Lemma start_exits_iff_witness :
  (Sample.start_strict
     {["EVM_PRIVATE_KEY" := "0xabc"; "SVM_PRIVATE_KEY" := "not base58"]}).2
  = Server.Exited 1.
Proof.
  apply (start_exits_iff (λ _, NaN) (λ _ : string, Some tt)
           (λ _ : string, None) (λ _ : unit, Some tt)).
  right. right. split; reflexivity.
Defined.

Lemma start_reads_secrets_witness :
  (Sample.start Sample.env).1
  = (Sample.start (<["REQUEST_TIMEOUT_MS" := "soon"]> Sample.env)).1.
Proof.
  apply (start_reads_secrets (λ _, NaN) (λ _ : string, Some tt)
           (λ _ : string, Some tt) (λ _ : unit, Some tt)
           Sample.env (<["REQUEST_TIMEOUT_MS" := "soon"]> Sample.env));
    reflexivity.
Defined.

(** ** Parsed bodies never meet the fallback *)

(** X11.  When the heap that [api.get] leaves holds parsed JSON only
    (trees, no BigInt), the text a tool returns is [JSON.stringify] of the
    envelope, whatever the call settled to; it is never the fallback
    text. *)
Theorem parsed_body_serialized (api : Server.Api) cfg c h outcome :
  api (Server.endpointPath cfg) (Envelope.query c) = (h, outcome) →
  downward h = true →
  below (length h) (Outcome.body outcome) = true →
  ∃ text tail,
    Server.invoke api cfg c = Normal (Server.one_text text)
    ∧ text = Json.dq "{
  'ok': " +:+ match outcome with
              | Axios.Fulfilled _ => "true"
              | Axios.Rejected _ => "false"
              end +:+ "," +:+ tail
    ∧ text ≠ Server.fallback_text.
Proof.
  intros Hcall Hdown Hbody.
  assert (Hs : ∃ text h' result,
             Server.invoke api cfg c = Normal (Server.one_text text)
             ∧ Json.stringify (Server.reify h' result).1
                              (Server.reify h' result).2 = Normal (Some text)
             ∧ Server.ok result
               = match outcome with
                 | Axios.Fulfilled _ => true
                 | Axios.Rejected _ => false
                 end).
  { rewrite invoke_handler, Hcall.
    pose proof (downward_closed _ Hdown) as Hclosed.
    destruct outcome as [response|error].
    - destruct (downward_prints _ _ Hdown Hbody) as [Hin [r Hr]].
      destruct (envelope_prints h cfg c true
                  (Server.success_upstream h response) r Hclosed Hin Hr)
        as (text & Ht & Hst).
      exists text, h,
        (Envelope.make cfg c true (Server.success_upstream h response)).
      split; [by apply handler_fulfilled|]. by split.
    - destruct error as [m [response|]|n m].
      + destruct (rejected_envelope cfg c h
                    (Axios.AxiosError m (Some response)))
          as (_ & text & Hh & Ht & Hprints).
        destruct (nullish (Axios.data response)) eqn:Hnull.
        * eexists text, _, _. split; [exact Hh|].
          split; [exact (Hprints Hnull)|done].
        * simpl in Hbody.
          destruct (downward_prints _ _ Hdown Hbody) as [Hin [r Hr]].
          cbn [from_option] in Ht. rewrite Hnull in Ht.
          match type of Ht with
          | Server.toRawOutput _ (Envelope.make _ _ _ ?up) = _ =>
              destruct (envelope_prints h cfg c false up r Hclosed Hin Hr)
                as (text' & Ht' & Hst)
          end.
          rewrite Ht in Ht'. injection Ht' as <-.
          eexists text, _, _. split; [exact Hh|]. split; [exact Hst|done].
      + destruct (rejected_envelope cfg c h (Axios.AxiosError m None))
          as (_ & text & Hh & _ & Hprints).
        eexists text, _, _. split; [exact Hh|].
        split; [exact (Hprints eq_refl)|done].
      + destruct (rejected_envelope cfg c h (Axios.OtherError n m))
          as (_ & text & Hh & _ & Hprints).
        eexists text, _, _. split; [exact Hh|].
        split; [exact (Hprints eq_refl)|done]. }
  destruct Hs as (text & h' & result & Hinvoke & Hst & Hok).
  destruct (envelope_text_opening _ _ _ Hst) as [tail Htail].
  rewrite Hok in Htail.
  exists text, tail. split; [done|]. split.
  - rewrite Htail. by destruct outcome.
  - intros Hf. rewrite Hf in Htail. by destruct (opening_not_fallback _ _ Htail).
Qed.

Lemma parsed_body_serialized_witness :
  ∃ text,
    Server.invoke Sample.weather_api Sample.cfg
      (Server.GetWeather "Beijing" None)
    = Normal (Server.one_text text)
    ∧ text ≠ Server.fallback_text.
Proof.
  destruct (parsed_body_serialized Sample.weather_api Sample.cfg
              (Server.GetWeather "Beijing" None) Sample.weather_heap _
              eq_refl eq_refl eq_refl) as (text & tail & Ht & _ & Hne).
  exists text. split; [exact Ht|exact Hne].
Defined.

(** ** A header that is not there *)

Lemma assoc_absent key props : key ∉ props.*1 → assoc key props = VUndefined.
Proof.
  induction props as [|[name v] props IH]; simpl; [done|]. intros Hin.
  apply not_elem_of_cons in Hin as [Hne Hin].
  destruct (String.eqb name key) eqn:Heq; [|by apply IH].
  apply String.eqb_eq in Heq. congruence.
Qed.

(** X12.  A headers object that has no property under the key, under its
    lower-case form or under its upper-case form gives [undefined],
    whatever it holds under other names, other spellings of the same name
    included. *)
Theorem getHeaderValue_absent h a props key :
  h !! a = Some (Obj props) →
  key ∉ props.*1 →
  toLowerCase key ∉ props.*1 →
  toUpperCase key ∉ props.*1 →
  Server.getHeaderValue h (VRef a) key = None.
Proof.
  intros Ha H1 H2 H3. rewrite (getHeaderValue_obj _ _ _ _ Ha). simpl.
  by rewrite !assoc_absent.
Qed.

Lemma getHeaderValue_absent_witness :
  Server.getHeaderValue
    [Obj [("Payment-Response", VString "receipt");
          ("content-type", VString "application/json")]]
    (VRef 0) "payment-response" = None.
Proof.
  apply (getHeaderValue_absent _ 0
           [("Payment-Response", VString "receipt");
            ("content-type", VString "application/json")]);
    [reflexivity | | | ];
    intros Hin; repeat (apply elem_of_cons in Hin as [Hin|Hin];
                        [discriminate Hin|]);
    by apply elem_of_nil in Hin.
Defined.

(** ** [createPaidHttpClient] without the guard *)

Section client_without_secrets.

Context {Signer Bytes : Type}.
Context (privateKeyToAccount : string → option Signer).
Context (base58_decode : string → option Bytes).
Context (createKeyPairSignerFromBytes : Bytes → option Signer).

(** X13.  [createPaidHttpClient] does not itself ask for a secret: with
    neither provided it calls no signer library, registers nothing and
    returns a client without any scheme.  Only the guard of the module
    body keeps such a client from serving. *)
Theorem createPaidHttpClient_without_secrets cfg :
  Server.no_signer cfg = true →
  Server.createPaidHttpClient privateKeyToAccount base58_decode
    createKeyPairSignerFromBytes cfg
  = ([], Some {| Server.api_baseURL := Server.baseURL cfg;
                 Server.api_timeout := Server.requestTimeoutMs cfg;
                 Server.api_client := ∅ |}).
Proof.
  unfold Server.no_signer, Server.createPaidHttpClient.
  destruct (Server.evmPrivateKey cfg) as [evm|];
    destruct (Server.svmPrivateKey cfg) as [svm|]; simpl;
    repeat match goal with
      | |- context [String.eqb ?k EmptyString] =>
          destruct (String.eqb k EmptyString); simpl
      end; done.
Qed.

End client_without_secrets.

Lemma createPaidHttpClient_without_secrets_witness :
  (Server.createPaidHttpClient (λ _ : string, Some tt) (λ _ : string, Some tt)
     (λ _ : unit, Some tt) (Server.load (λ _, NaN) ∅)).1 = [].
Proof.
  rewrite (createPaidHttpClient_without_secrets (λ _ : string, Some tt)
             (λ _ : string, Some tt) (λ _ : unit, Some tt)
             (Server.load (λ _, NaN) ∅)); reflexivity.
Defined.

(** * The envelope as the client reads it *)

Section text_facts.

Import Json.

(** ** Values that print without the heap *)

Lemma serialize_plain fuel fuel' h h' stack stack' indent indent' v :
  plain v = true →
  serialize fuel h stack indent v = serialize fuel' h' stack' indent' v.
Proof. intros Hv. destruct v as [| |[]|[]| | | |a], fuel, fuel'; done. Qed.

Lemma serialize_string fuel h stack indent s :
  serialize fuel h stack indent (VString s) = Normal (Some (quote s)).
Proof. by destruct fuel. Qed.

Lemma serialize_null fuel h stack indent :
  serialize fuel h stack indent VNull = Normal (Some "null").
Proof. by destruct fuel. Qed.

Lemma serialize_bool fuel h stack indent b :
  serialize fuel h stack indent (VBool b) = Normal (Some (Text.boolean b)).
Proof. by destruct fuel, b. Qed.

Lemma serialize_number_or_null fuel h stack indent n :
  serialize fuel h stack indent (Server.number_or_null n)
  = Normal (Some (Text.number_or_null n)).
Proof. by destruct fuel, n. Qed.

Lemma serialize_string_or_null fuel h stack indent s :
  serialize fuel h stack indent (Server.string_or_null s)
  = Normal (Some (Text.string_or_null s)).
Proof. by destruct fuel, s. Qed.

(** ** One object *)

Lemma serialize_obj fuel h stack indent a props :
  h !! a = Some (Obj props) → a ∉ stack →
  serialize (S fuel) h stack indent (VRef a)
  = (partial ←! members (serialize fuel h (a :: stack) (indent +:+ gap)) props;
     Normal (Some (wrap "{" "}" indent (indent +:+ gap) partial))).
Proof.
  intros Ha Hin. simpl. rewrite bool_decide_eq_false_2 by done. by rewrite Ha.
Qed.

(** ** The same text in a larger heap *)

Lemma members_agree {E} (go go' : value → completion E (option string))
    props p :
  (∀ v r, v ∈ props.*2 → go v = Normal r →
          go' v = Normal r ∨ go' v = OutOfFuel) →
  members go props = Normal p →
  members go' props = Normal p ∨ members go' props = OutOfFuel.
Proof.
  revert p. induction props as [|[k v] ps IH]; simpl; intros p Hgo Hp;
    [by left|].
  destruct (go v) as [strP| |] eqn:Hv; simpl in Hp; [|done|done].
  destruct (members go ps) as [rest| |] eqn:Hps; simpl in Hp; [|done|done].
  destruct (Hgo v strP (list_elem_of_here _ _) Hv) as [-> | ->];
    simpl; [|by right].
  destruct (IH rest) as [-> | ->]; simpl; [|done|by left|by right].
  intros v' r' Hv'. apply Hgo. by right.
Qed.

Lemma elements_agree {E} (go go' : value → completion E (option string))
    elems p :
  (∀ v r, v ∈ elems → go v = Normal r →
          go' v = Normal r ∨ go' v = OutOfFuel) →
  elements go elems = Normal p →
  elements go' elems = Normal p ∨ elements go' elems = OutOfFuel.
Proof.
  revert p. induction elems as [|v vs IH]; simpl; intros p Hgo Hp;
    [by left|].
  destruct (go v) as [strP| |] eqn:Hv; simpl in Hp; [|done|done].
  destruct (elements go vs) as [rest| |] eqn:Hvs; simpl in Hp; [|done|done].
  destruct (Hgo v strP (list_elem_of_here _ _) Hv) as [-> | ->];
    simpl; [|by right].
  destruct (IH rest) as [-> | ->]; simpl; [|done|by left|by right].
  intros v' r' Hv'. apply Hgo. by right.
Qed.

(** What a value of a closed heap prints as does not change when the heap
    grows at its end and the stack holds new cells only: with whatever
    fuel, the serializer gives the same text or runs out of fuel. *)
Lemma serialize_extend_text h ext :
  closed h = true →
  ∀ fuel stack indent v r fuel' stack',
    in_heap h v = true →
    (∀ x, x < length h → x ∈ stack' → x ∈ stack) →
    serialize fuel h stack indent v = Normal r →
    serialize fuel' (h ++ ext) stack' indent v = Normal r
    ∨ serialize fuel' (h ++ ext) stack' indent v = OutOfFuel.
Proof.
  intros Hc. induction fuel as [|fuel IH];
    intros stack indent v r fuel' stack' Hv Hst Hs.
  - destruct v as [| |[]|[]| | | |a];
      try (left; rewrite <- Hs; by apply serialize_plain).
    simpl in Hs. by case_bool_decide.
  - destruct v as [| |[]|[]| | | |a];
      try (left; rewrite <- Hs; by apply serialize_plain).
    simpl in Hs. case_bool_decide as Hin; [done|].
    simpl in Hv. apply bool_decide_eq_true in Hv.
    assert (Hin' : a ∉ stack') by (intros Hin'; by apply Hin, Hst).
    destruct fuel' as [|fuel']; simpl;
      rewrite bool_decide_eq_false_2 by done; [by right|].
    rewrite lookup_app_l by done.
    destruct (h !! a) as [o|] eqn:Ho; [|by apply lookup_ge_None in Ho; lia].
    assert (Hst' : ∀ x, x < length h → x ∈ a :: stack' → x ∈ a :: stack).
    { intros x Hx [->|Hx']%elem_of_cons; [by left|right; by apply Hst]. }
    destruct o as [props|elems].
    + destruct (members _ props) as [p| |] eqn:Hm; simpl in Hs; [|done|done].
      injection Hs as <-.
      destruct (members_agree _
                  (serialize fuel' (h ++ ext) (a :: stack') (indent +:+ gap))
                  props _ (λ v r Hfield Hr,
                         IH _ _ v r fuel' _
                           (closed_lookup _ _ _ _ Hc Ho Hfield) Hst' Hr) Hm)
        as [-> | ->]; [by left|by right].
    + destruct (elements _ elems) as [p| |] eqn:Hm; simpl in Hs; [|done|done].
      injection Hs as <-.
      destruct (elements_agree _
                  (serialize fuel' (h ++ ext) (a :: stack') (indent +:+ gap))
                  elems _ (λ v r Hfield Hr,
                         IH _ _ v r fuel' _
                           (closed_lookup _ _ _ _ Hc Ho Hfield) Hst' Hr) Hm)
        as [-> | ->]; [by left|by right].
Qed.

(** ** The four objects of an envelope *)

Lemma reify_length h result :
  length (Server.reify h result).1 = S (S (S (S (length h)))).
Proof. unfold Server.reify. simpl. rewrite length_app. simpl. lia. Qed.

Lemma request_text fuel h stack c :
  members (serialize fuel h stack "    ") (Envelope.request c)
  = Normal match c with
           | Server.GetWeather city date =>
               [ quote "tool" +:+ ": " +:+ quote "get-weather";
                 quote "city" +:+ ": " +:+ quote city;
                 quote "date" +:+ ": " +:+ Text.string_or_null date ]
           | Server.GetDataFromResourceServer =>
               [ quote "tool" +:+ ": "
                 +:+ quote "get-data-from-resource-server" ]
           end.
Proof.
  destruct c as [city [d|]|]; simpl;
    rewrite ?serialize_string, ?serialize_null; reflexivity.
Qed.

Lemma reify_text h cfg c ok up body :
  serialize (S (S (S (length h))))
    (Server.reify h (Envelope.make cfg c ok up)).1
    [length h + 3; length h] "    " (Server.data up) = Normal body →
  stringify (Server.reify h (Envelope.make cfg c ok up)).1 (VRef (length h))
  = Normal (Some (Text.envelope cfg c ok (Server.status up)
                    (Server.payment_response_header up)
                    (Server.x_payment_response_header up) body)).
Proof.
  intros Hdata. unfold stringify. rewrite reify_length.
  set (result := Envelope.make cfg c ok up) in *.
  set (h' := (Server.reify h result).1) in *.
  pose proof (reify_lookup h result 0) as H0. rewrite Nat.add_0_r in H0.
  pose proof (reify_lookup h result 1) as H1.
  pose proof (reify_lookup h result 2) as H2.
  pose proof (reify_lookup h result 3) as H3.
  fold h' in H0, H1, H2, H3. simpl in H0, H1, H2, H3.
  rewrite (serialize_obj _ _ _ _ _ _ H0) by apply not_elem_of_nil.
  assert (Hsource :
    serialize (S (S (S (S (length h))))) h' [length h] "  "
      (VRef (length h + 1))
    = Normal (Some (wrap "{" "}" "  " "    "
        [ quote "url" +:+ ": " +:+ quote (Server.baseURL cfg);
          quote "path" +:+ ": " +:+ quote (Server.endpointPath cfg) ]))).
  { rewrite (serialize_obj _ _ _ _ _ _ H1) by (set_unfold; lia).
    reflexivity. }
  assert (Hrequest :
    serialize (S (S (S (S (length h))))) h' [length h] "  "
      (VRef (length h + 2))
    = (partial ←! members (serialize (S (S (S (length h)))) h'
                             [length h + 2; length h] "    ")
                    (Envelope.request c);
       Normal (Some (wrap "{" "}" "  " "    " partial)))).
  { by rewrite (serialize_obj _ _ _ _ _ _ H2) by (set_unfold; lia). }
  rewrite request_text in Hrequest.
  assert (Hupstream :
    serialize (S (S (S (S (length h))))) h' [length h] "  "
      (VRef (length h + 3))
    = Normal (Some (wrap "{" "}" "  " "    "
        ([ quote "status" +:+ ": " +:+ Text.number_or_null (Server.status up);
           quote "payment_response_header" +:+ ": "
           +:+ Text.string_or_null (Server.payment_response_header up);
           quote "x_payment_response_header" +:+ ": "
           +:+ Text.string_or_null (Server.x_payment_response_header up) ]
         ++ match body with
            | Some b => [quote "data" +:+ ": " +:+ b]
            | None => []
            end)))).
  { rewrite (serialize_obj _ _ _ _ _ _ H3) by (set_unfold; lia).
    cbn [members cbind].
    rewrite serialize_number_or_null, !serialize_string_or_null.
    change ("  " +:+ gap) with "    ". simpl Server.data. rewrite Hdata.
    simpl. by destruct body. }
  cbn [members cbind]. rewrite serialize_bool.
  change (EmptyString +:+ gap) with "  ".
  rewrite Hsource, Hrequest, Hupstream. cbn [cbind].
  do 2 f_equal.
  unfold Text.envelope, Text.request, Text.data_member.
  generalize (Text.boolean ok) (quote (Server.baseURL cfg))
    (quote (Server.endpointPath cfg)) (Text.number_or_null (Server.status up))
    (Text.string_or_null (Server.payment_response_header up))
    (Text.string_or_null (Server.x_payment_response_header up)).
  intros t_ok t_url t_path t_status t_first t_second.
  destruct c as [city date|], body as [b|];
    [generalize (quote city) (Text.string_or_null date); intros t_city t_date..
    | |];
    cbv [wrap String.concat app]; rewrite <- !string_app_assoc;
    reflexivity.
Qed.

(** ** Where [data] stands *)

(** The body of a closed heap prints inside the envelope as it prints
    alone. *)
Lemma body_in_envelope h result body :
  closed h = true →
  in_heap h (Server.data (Server.upstream result)) = true →
  Text.body h (Server.data (Server.upstream result)) = Normal body →
  serialize (S (S (S (length h)))) (Server.reify h result).1
    [length h + 3; length h] "    " (Server.data (Server.upstream result))
  = Normal body.
Proof.
  intros Hc Hin Hbody.
  assert (Hstack : ∀ x, x < length h → x ∈ [length h + 3; length h]
                         → x ∈ @nil addr).
  { intros x Hx. set_unfold. lia. }
  edestruct (λ ext, serialize_extend_text h ext Hc _ _ _ _ _
                      (S (S (S (length h)))) _ Hin Hstack Hbody) as [Hs|Hs];
    [exact Hs|].
  exfalso. revert Hs. apply serialize_fuel.
  - apply NoDup_cons. split; [set_unfold; lia|]. apply NoDup_singleton.
  - rewrite length_app. simpl. repeat constructor; lia.
  - rewrite length_app. simpl. lia.
Qed.

(** The [{ message }] literal of the [catch] branch, allocated just before
    the envelope. *)
Lemma message_in_envelope h result text :
  serialize (S (S (S (length (h ++ [Obj [("message", VString text)]])))))
    (Server.reify (h ++ [Obj [("message", VString text)]]) result).1
    [length (h ++ [Obj [("message", VString text)]]) + 3;
     length (h ++ [Obj [("message", VString text)]])]
    "    " (VRef (length h))
  = Normal (Some (Text.message text)).
Proof.
  rewrite (serialize_obj _ _ _ _ _ [("message", VString text)]).
  - reflexivity.
  - unfold Server.reify. simpl.
    rewrite lookup_app_l by (rewrite length_app; simpl; lia).
    by rewrite lookup_app_r, Nat.sub_diag by lia.
  - rewrite length_app. simpl. set_unfold. lia.
Qed.

(** ** What [toRawOutput] returns *)

Lemma toRawOutput_stringify h result text :
  stringify (Server.reify h result).1 (VRef (length h)) = Normal (Some text) →
  Server.toRawOutput h result = Normal (Some text).
Proof.
  intros Hs. unfold Server.toRawOutput, Server.safeJsonStringify.
  change (Server.reify h result)
    with ((Server.reify h result).1, VRef (length h)) at 1.
  cbv iota beta. by rewrite Hs.
Qed.

(** A body that raises at one depth raises at every depth. *)
Lemma body_throws_stringify h v e :
  Text.body h v = Throw e → ∃ e', stringify h v = Throw e'.
Proof.
  intros Hbody.
  destruct (stringify h v) as [r|e'|] eqn:Hs;
    [|by eauto|by destruct (stringify_fuel _ _ Hs)].
  exfalso. unfold stringify in Hs.
  eapply (serialize_throw_extend h []); [exact Hbody| |].
  - intros x Hx. exact Hx.
  - rewrite app_nil_r. exact Hs.
Qed.

Lemma body_fuel h v : Text.body h v ≠ OutOfFuel.
Proof. apply serialize_fuel; [constructor|constructor|simpl; lia]. Qed.

End text_facts.

(** ** Receipts *)

Lemma recorded_getHeaderValue h headers name r :
  Receipt.recorded h headers name r →
  Server.getHeaderValue h headers name = r.
Proof.
  intros [a o s -> Ha Hs | a o b s rest -> Ha Hb Hs | [-> | ->]
          | a props -> Ha H1 H2 H3].
  - rewrite (getHeaderValue_obj _ _ _ _ Ha). simpl. by rewrite Hs.
  - rewrite (getHeaderValue_obj _ _ _ _ Ha). simpl. rewrite Hb. simpl.
    by rewrite Hs.
  - done.
  - done.
  - rewrite (getHeaderValue_obj _ _ _ _ Ha). simpl.
    by rewrite !assoc_absent.
Qed.

(** ** The text of every invocation *)

Section every_outcome.

Context (cfg : Server.Config) (c : Server.call) (h : heap).

(** The [try] branch and the [catch] branch with a body, which build the
    envelope in the heap as [api.get] left it. *)
Lemma envelope_of_body ok up :
  closed h = true →
  in_heap h (Server.data up) = true →
  match Text.body h (Server.data up) with
  | Normal body =>
      Server.toRawOutput h (Envelope.make cfg c ok up)
      = Normal (Some (Text.envelope cfg c ok (Server.status up)
                        (Server.payment_response_header up)
                        (Server.x_payment_response_header up) body))
  | Throw _ =>
      Server.toRawOutput h (Envelope.make cfg c ok up)
      = Normal (Some Server.fallback_text)
  | OutOfFuel => False
  end.
Proof.
  intros Hc Hin. destruct (Text.body h (Server.data up)) as [body|e|] eqn:Hbody.
  - apply toRawOutput_stringify, reify_text.
    by apply (body_in_envelope h (Envelope.make cfg c ok up)).
  - destruct (body_throws_stringify _ _ _ Hbody) as [e' He'].
    destruct (reify_throws h (Envelope.make cfg c ok up) e' He') as [e'' He''].
    by eapply toRawOutput_throws.
  - by destruct (body_fuel _ _ Hbody).
Qed.

(** The [catch] branch without a body, which allocates the [{ message }]
    literal first. *)
Lemma envelope_of_message text status first second :
  Server.toRawOutput (h ++ [Obj [("message", VString text)]])
    (Envelope.make cfg c false
       {| Server.status := status;
          Server.payment_response_header := first;
          Server.x_payment_response_header := second;
          Server.data := VRef (length h) |})
  = Normal (Some (Text.envelope cfg c false status first second
                    (Some (Text.message text)))).
Proof.
  apply toRawOutput_stringify.
  apply (reify_text _ cfg c false
           {| Server.status := status;
              Server.payment_response_header := first;
              Server.x_payment_response_header := second;
              Server.data := VRef (length h) |}).
  apply message_in_envelope.
Qed.

Lemma handler_text outcome :
  closed h = true →
  in_heap h (Outcome.body outcome) = true →
  match Settled.data h outcome with
  | Normal body =>
      Server.handler cfg (Envelope.request c) (h, outcome)
      = Normal (Server.one_text
          (Text.envelope cfg c (Settled.ok outcome) (Settled.status outcome)
             (Server.getHeaderValue h (Settled.headers outcome)
                "payment-response")
             (Server.getHeaderValue h (Settled.headers outcome)
                "x-payment-response")
             body))
  | Throw _ =>
      Server.handler cfg (Envelope.request c) (h, outcome)
      = Normal (Server.one_text Server.fallback_text)
  | OutOfFuel => False
  end.
Proof.
  intros Hc Hin. destruct outcome as [response|[m [response|]|n m]].
  - pose proof (envelope_of_body true (Server.success_upstream h response)
                  Hc Hin) as Htext.
    simpl in *. destruct (Text.body h (Axios.data response));
      [|by apply handler_fulfilled|done].
    by apply handler_fulfilled.
  - simpl in Hin. unfold Settled.data. simpl Outcome.body.
    destruct (nullish (Axios.data response)) eqn:Hnull.
    + apply handler_rejected. simpl. rewrite Hnull. simpl.
      apply envelope_of_message.
    + pose proof (envelope_of_body false
                    {| Server.status := Axios.status response;
                       Server.payment_response_header :=
                         Server.getHeaderValue h (Axios.headers response)
                           "payment-response";
                       Server.x_payment_response_header :=
                         Server.getHeaderValue h (Axios.headers response)
                           "x-payment-response";
                       Server.data := Axios.data response |} Hc Hin) as Htext.
      simpl in Htext. destruct (Text.body h (Axios.data response));
        [| |done]; apply handler_rejected; simpl; rewrite Hnull; exact Htext.
  - apply handler_rejected. simpl. apply envelope_of_message.
  - apply handler_rejected. simpl. apply envelope_of_message.
Qed.

End every_outcome.

(** ** The tool boundary *)

(** C2.  Every invocation of either tool, whatever [api.get] settles to
    (a response, an axios error, any other error), completes normally and
    returns exactly one text item; no invocation ends in an exception.
    The text is the one envelope of that call: in a heap without dangling
    references it is the envelope text of the design document, with [ok]
    telling whether [api.get] resolved, the status and the receipts of the
    response that came back and its body (or the error's text) as [data];
    it is the fallback text when that body cannot be serialized. *)
Theorem tool_boundary (api : Server.Api) cfg c :
  (∃ text, Server.invoke api cfg c = Normal (Server.one_text text))
  ∧ ∀ h outcome,
      api (Server.endpointPath cfg) (Envelope.query c) = (h, outcome) →
      closed h = true →
      in_heap h (Outcome.body outcome) = true →
      ∃ first second,
        (∀ r, Receipt.recorded h (Settled.headers outcome)
                "payment-response" r → first = r)
        ∧ (∀ r, Receipt.recorded h (Settled.headers outcome)
                  "x-payment-response" r → second = r)
        ∧ match Settled.data h outcome with
          | Normal body =>
              Server.invoke api cfg c
              = Normal (Server.one_text
                  (Text.envelope cfg c (Settled.ok outcome)
                     (Settled.status outcome) first second body))
          | Throw _ =>
              Server.invoke api cfg c
              = Normal (Server.one_text Server.fallback_text)
          | OutOfFuel => False
          end.
Proof.
  split; [apply tool_text|]. intros h outcome Hcall Hc Hin.
  exists (Server.getHeaderValue h (Settled.headers outcome) "payment-response"),
    (Server.getHeaderValue h (Settled.headers outcome) "x-payment-response").
  split; [intros r Hr; by apply recorded_getHeaderValue|].
  split; [intros r Hr; by apply recorded_getHeaderValue|].
  rewrite invoke_handler, Hcall. by apply handler_text.
Qed.

(** At the example of the design document and at a body that refers to
    itself. *)
Lemma tool_boundary_witness :
  Server.invoke Sample.weather_api Sample.cfg (Server.GetWeather "Beijing" None)
  = Normal (Server.one_text
      (Text.envelope Sample.cfg (Server.GetWeather "Beijing" None) true
         (Some 200%Z) None None (Some (Json.dq "{
      'temp': 21
    }"))))
  ∧ Server.invoke Corner.cyclic_api Sample.cfg Server.GetDataFromResourceServer
    = Normal (Server.one_text Server.fallback_text).
Proof.
  split.
  - destruct (tool_boundary Sample.weather_api Sample.cfg
                (Server.GetWeather "Beijing" None)) as [_ Htext].
    destruct (Htext Sample.weather_heap
                (Axios.Fulfilled Sample.weather_response)
                eq_refl eq_refl eq_refl)
      as (first & second & Hfirst & Hsecond & Hinvoke).
    assert (Hnone : ∀ name,
              Receipt.recorded Sample.weather_heap
                (Settled.headers (Axios.Fulfilled Sample.weather_response))
                name None).
    { intros name.
      by apply (Receipt.recorded_absent _ _ _ 1 []);
        try apply not_elem_of_nil. }
    rewrite (Hfirst None (Hnone _)), (Hsecond None (Hnone _)) in Hinvoke.
    exact Hinvoke.
  - destruct (tool_boundary Corner.cyclic_api Sample.cfg
                Server.GetDataFromResourceServer) as [_ Htext].
    destruct (Htext Corner.cyclic_heap
                (Axios.Fulfilled Corner.cyclic_response)
                eq_refl eq_refl eq_refl)
      as (first & second & _ & _ & Hinvoke).
    exact Hinvoke.
Defined.

(** ** A resolved call *)



(** ** A rejected call *)

(** C5.  When [api.get] rejects, the tool returns the envelope text with
    [ok] false.  The status and the receipts are those of the response
    the error carries when it is an axios error with a response, and
    [null] otherwise, an error that is not an axios error included.
    [data] is the body of that response as [JSON.stringify] prints it,
    unless there is no such body ([undefined] or [null]): then it is the
    object [{ message }] holding the error's text, [error.message] for an
    axios error and [String(error)] for any other, which ends with the
    error's message.  A timeout is an axios error without a response. *)
Theorem failed_envelope (api : Server.Api) cfg c h error body :
  api (Server.endpointPath cfg) (Envelope.query c)
    = (h, Axios.Rejected error) →
  let response :=
    match error with
    | Axios.AxiosError _ r => r
    | Axios.OtherError _ _ => None
    end in
  let carried :=
    match error with
    | Axios.AxiosError m _ => m
    | Axios.OtherError _ _ => Axios.to_string error
    end in
  let data := from_option Axios.data VUndefined response in
  closed h = true →
  in_heap h data = true →
  (if nullish data then Normal (Some (Text.message carried))
   else Text.body h data) = Normal body →
  (∃ prefix, carried = prefix +:+ Axios.message error)
  ∧ ∃ first second,
      Server.invoke api cfg c
      = Normal (Server.one_text
          (Text.envelope cfg c false (response ≫= Axios.status)
             first second body))
      ∧ (∀ r, Receipt.recorded h
                (from_option Axios.headers VUndefined response)
                "payment-response" r → first = r)
      ∧ (∀ r, Receipt.recorded h
                (from_option Axios.headers VUndefined response)
                "x-payment-response" r → second = r).
Proof.
  intros Hcall response carried data Hc Hin Hbody. split.
  { destruct (rejected_envelope cfg c h error) as [Hcarried _].
    exact Hcarried. }
  exists (Server.getHeaderValue h
            (from_option Axios.headers VUndefined response) "payment-response"),
    (Server.getHeaderValue h
       (from_option Axios.headers VUndefined response) "x-payment-response").
  split; [|split; intros r Hr; by apply recorded_getHeaderValue].
  rewrite invoke_handler, Hcall.
  pose proof (handler_text cfg c h (Axios.Rejected error)) as Htext.
  assert (Hdata : Settled.data h (Axios.Rejected error)
                  = if nullish data then Normal (Some (Text.message carried))
                    else Text.body h data).
  { by destruct error as [m [r|]|n m]. }
  rewrite Hdata, Hbody in Htext.
  assert (Hsame : Outcome.body (Axios.Rejected error) = data).
  { by destruct error as [m [r|]|n m]. }
  rewrite Hsame in Htext. specialize (Htext Hc Hin).
  by destruct error as [m [r|]|n m].
Qed.

(** The timeout of the design document. *)
Lemma failed_envelope_witness :
  Server.invoke Sample.timeout_api Sample.cfg
    (Server.GetWeather "Beijing" (Some "2026-02-13"))
  = Normal (Server.one_text (Json.dq "{
  'ok': false,
  'source': {
    'url': 'http://localhost:4021',
    'path': '/weather'
  },
  'request': {
    'tool': 'get-weather',
    'city': 'Beijing',
    'date': '2026-02-13'
  },
  'upstream': {
    'status': null,
    'payment_response_header': null,
    'x_payment_response_header': null,
    'data': {
      'message': 'timeout of 15000ms exceeded'
    }
  }
}")).
Proof.
  destruct (failed_envelope Sample.timeout_api Sample.cfg
              (Server.GetWeather "Beijing" (Some "2026-02-13")) []
              Sample.timeout _ eq_refl eq_refl eq_refl eq_refl)
    as (_ & first & second & Hinvoke & Hfirst & Hsecond).
  rewrite (Hfirst None), (Hsecond None) in Hinvoke.
  - exact Hinvoke.
  - apply Receipt.recorded_no_headers. by left.
  - apply Receipt.recorded_no_headers. by left.
Defined.

(** A response was received, with status 402, and [api.get] rejected
    with an error that is not an axios error: the envelope has the status
    [null], not 402, whatever its other members. *)
Lemma failed_envelope_counterexample :
  let f := {| Failed.received := Some Sample.challenge_response;
              Failed.rejection :=
                Axios.OtherError "Error" "Failed to create payment payload" |} in
  let api : Server.Api :=
    λ _ _, (Sample.challenge_heap "evm", Axios.Rejected (Failed.rejection f)) in
  Failed.documented_status f = Some 402%Z
  ∧ Server.invoke api Sample.cfg Server.GetDataFromResourceServer
    = Normal (Server.one_text
        (Text.envelope Sample.cfg Server.GetDataFromResourceServer false
           None None None
           (Some (Text.message "Error: Failed to create payment payload"))))
  ∧ ∀ first second body,
      Server.invoke api Sample.cfg Server.GetDataFromResourceServer
      ≠ Normal (Server.one_text
          (Text.envelope Sample.cfg Server.GetDataFromResourceServer false
             (Failed.documented_status f) first second body)).
Proof.
  intros f api. split; [reflexivity|]. split; [reflexivity|].
  intros first second body Heq. vm_compute in Heq. discriminate Heq.
Qed.

(** ** A challenge no capability answers *)

Section unsupported.

Context {Signer Terms Proof : Type}.
Context (registry : gmap Server.family Signer).
Context (challenge_of : heap → Axios.AxiosResponse
                         → Executor.Challenge (Terms := Terms)).
Context (sign : Signer → Executor.Challenge (Terms := Terms)
                → Axios.thrown + Proof).
Context (upstream : nat → Executor.Request (Proof := Proof) → Executor.wire).

(** C7.  When the original request is answered with a 402 whose challenge
    names a family that has no capability in the registry, the executor
    makes that one call only, and the tool returns the envelope text with
    [ok] false, the status 402, the receipts of that response and, under
    [data], the body of that response as [JSON.stringify] prints it (the
    body being present, as a body that carries a challenge is). *)
Theorem unsupported_scheme cfg c h r body :
  let req := {| Executor.path := Server.endpointPath cfg;
                Executor.params := Envelope.query c;
                Executor.payment := None |} in
  upstream 0 req = Executor.Response h r →
  Axios.status r = Some 402%Z →
  registry !! Executor.scheme (challenge_of h r) = None →
  nullish (Axios.data r) = false →
  closed h = true →
  in_heap h (Axios.data r) = true →
  Text.body h (Axios.data r) = Normal body →
  (Executor.execute registry challenge_of sign upstream req).2 = [req]
  ∧ ∃ first second,
      Server.invoke (Executor.api registry challenge_of sign upstream) cfg c
      = Normal (Server.one_text
          (Text.envelope cfg c false (Some 402%Z) first second body))
      ∧ (∀ x, Receipt.recorded h (Axios.headers r) "payment-response" x
              → first = x)
      ∧ (∀ x, Receipt.recorded h (Axios.headers r) "x-payment-response" x
              → second = x).
Proof.
  intros req Hup Hstatus Hscheme Hnull Hc Hin Hbody.
  assert (Hrun : Executor.execute registry challenge_of sign upstream req
                 = (Executor.Failed h (Executor.surfaced r), [req])).
  { unfold Executor.execute. simpl. rewrite Hup. simpl.
    unfold Executor.payment_required.
    rewrite (bool_decide_eq_true_2 _ Hstatus). simpl.
    unfold Executor.negotiate. by rewrite Hscheme. }
  split; [by rewrite Hrun|].
  exists (Server.getHeaderValue h (Axios.headers r) "payment-response"),
    (Server.getHeaderValue h (Axios.headers r) "x-payment-response").
  split; [|split; intros x Hx; by apply recorded_getHeaderValue].
  rewrite invoke_api. fold req. rewrite Hrun. simpl Executor.settle.
  pose proof (handler_text cfg c h
                (Axios.Rejected (Executor.surfaced r)) Hc Hin) as Htext.
  unfold Settled.data in Htext. simpl Outcome.body in Htext.
  rewrite Hnull, Hbody in Htext.
  change (Settled.status (Axios.Rejected (Executor.surfaced r)))
    with (Axios.status r) in Htext.
  by rewrite Hstatus in Htext.
Qed.

End unsupported.

(** A process that holds the EVM capability only, asked for an SVM
    payment. *)
Lemma unsupported_scheme_witness :
  Server.invoke (Sample.api (Sample.insatiable "svm")) Sample.cfg
    Server.GetDataFromResourceServer
  = Normal (Server.one_text (Json.dq "{
  'ok': false,
  'source': {
    'url': 'http://localhost:4021',
    'path': '/weather'
  },
  'request': {
    'tool': 'get-data-from-resource-server'
  },
  'upstream': {
    'status': 402,
    'payment_response_header': null,
    'x_payment_response_header': null,
    'data': {
      'family': 'svm',
      'amount': 1000
    }
  }
}")).
Proof.
  destruct (unsupported_scheme Sample.registry Sample.challenge_of Sample.sign
              (Sample.insatiable "svm") Sample.cfg
              Server.GetDataFromResourceServer
              (Sample.challenge_heap "svm") Sample.challenge_response _
              eq_refl eq_refl eq_refl eq_refl eq_refl eq_refl eq_refl)
    as (_ & first & second & Hinvoke & Hfirst & Hsecond).
  rewrite (Hfirst None), (Hsecond None) in Hinvoke.
  - exact Hinvoke.
  - apply Receipt.recorded_no_headers. by left.
  - apply Receipt.recorded_no_headers. by left.
Defined.
